(** * Eburon AI: the generation request/response orchestration

    A shallow embedding of the browser application's orchestration code:
    - [src/App.tsx] (root component: [handleError], [handleGenerate],
      [handleGenerateImage], the history load and persist effects, the
      import handler),
    - the service layer [services/gemini] ([isQuotaOrAuthError],
      [identifyImage], [generateFluxImage], [generateAIImage],
      [bringToLife]),
    - [src/components/InputArea.tsx] ([handleSubmit]),
    - [src/components/LivePreview.tsx] ([handleExport]).

    Remote services, the clock, the UUID generator and the file reader are
    the environment: their answers are fields of a [World].  Asynchronous
    functions are computations in a small monad that threads the browser
    state (React state and a log of observable effects) and settles as a
    fulfilled or a rejected promise. *)

From Stdlib Require Import Bool Ascii String List ZArith Lia QArith.
Import ListNotations.

Set Implicit Arguments.

Local Open Scope list_scope.
Local Open Scope string_scope.

(* ================================================================== *)
(** ** JavaScript strings

    Strings are sequences of code units; the model keeps the code units
    below 256, which is where every character the code inspects lives. *)

Module JsString.

(** ECMAScript [WhiteSpace] and [LineTerminator] below 256: TAB, LF, VT,
    FF, CR, SP and NBSP.  This is the class of [\s] and of [trim]. *)
Definition isWhiteSpace (c : ascii) : bool :=
  let n := nat_of_ascii c in
  ((9 <=? n) && (n <=? 13) || (n =? 32) || (n =? 160))%nat.

Fixpoint trimStart (s : string) : string :=
  match s with
  | String c s' => if isWhiteSpace c then trimStart s' else s
  | EmptyString => EmptyString
  end.

(** [trimEnd] keeps a character when it is not white space or when
    something is kept after it. *)
Fixpoint trimEnd (s : string) : string :=
  match s with
  | EmptyString => EmptyString
  | String c s' =>
      match trimEnd s' with
      | EmptyString => if isWhiteSpace c then EmptyString else String c EmptyString
      | r => String c r
      end
  end.

Definition trim (s : string) : string := trimEnd (trimStart s).

(** [needle] is a prefix of [s] ([s.startsWith(needle)]). *)
Fixpoint startsWith (s needle : string) {struct needle} : bool :=
  match needle, s with
  | EmptyString, _ => true
  | String _ _, EmptyString => false
  | String a n', String b s' => Ascii.eqb a b && startsWith s' n'
  end.

(** [s.includes(needle)]. *)
Fixpoint includes (s needle : string) : bool :=
  startsWith s needle
  || match s with
     | EmptyString => false
     | String _ s' => includes s' needle
     end.

Definition endsWith (s needle : string) : bool :=
  (String.length needle <=? String.length s)%nat
  && String.eqb (substring (String.length s - String.length needle)
                           (String.length needle) s) needle.

(** [s.slice(0, n)] for a non-negative [n]. *)
Definition slice0 (n : nat) (s : string) : string := substring 0 n s.

(** [toLowerCase], on the letters A to Z. *)
Definition toLowerChar (c : ascii) : ascii :=
  let n := nat_of_ascii c in
  if ((65 <=? n) && (n <=? 90))%nat then ascii_of_nat (n + 32) else c.

Fixpoint toLowerCase (s : string) : string :=
  match s with
  | EmptyString => EmptyString
  | String c s' => String (toLowerChar c) (toLowerCase s')
  end.

(** A string is truthy when it is not empty. *)
Definition truthy (s : string) : bool :=
  match s with EmptyString => false | _ => true end.

(** [a || b] on strings. *)
Definition or_else (a b : string) : string := if truthy a then a else b.

(** [xs.join(sep)]. *)
Fixpoint join (sep : string) (xs : list string) : string :=
  match xs with
  | [] => EmptyString
  | [x] => x
  | x :: rest => x ++ sep ++ join sep rest
  end.

Definition LF : string := String (ascii_of_nat 10) EmptyString.

(** Writes a literal that holds double quotes with single quotes. *)
Fixpoint dq (s : string) : string :=
  match s with
  | EmptyString => EmptyString
  | String c s' =>
      String (if Ascii.eqb c "'"%char then ascii_of_nat 34 else c) (dq s')
  end.

End JsString.
Import JsString.

(* ================================================================== *)
(** ** Promises and thrown values *)

(** A value thrown or a rejection reason.  The fields are the three that
    [isQuotaOrAuthError] and [handleError] read, at the types their
    defaults give them: an absent [message] or [status] reads as the empty
    string, an absent [code] as 0. *)
Record exn : Type := mkExn {
  message : string;
  status : string;
  code : Z
}.

(** [new Error(msg)]. *)
Definition Error (msg : string) : exn :=
  {| message := msg; status := EmptyString; code := 0 |}.

(** A settled promise. *)
Inductive settled (A : Type) : Type :=
| Fulfilled (a : A)
| Rejected (e : exn).
Arguments Fulfilled {A} a.
Arguments Rejected {A} e.

(* ================================================================== *)
(** ** Service layer: error classification *)

Definition KEY_RESET_REQUIRED : string := "KEY_RESET_REQUIRED".

Definition isQuotaOrAuthError (error : exn) : bool :=
  includes (message error) "Requested entity was not found"
  || includes (message error) "quota"
  || includes (message error) "RESOURCE_EXHAUSTED"
  || String.eqb (status error) "RESOURCE_EXHAUSTED"
  || Z.eqb (code error) 429.

(* ================================================================== *)
(** ** Data model *)

Record IdentificationResult : Type := mkIdentification {
  label : string;
  confidence : Q;
  description : string;
  type : string
}.

(** A [Date] object holds a time value in milliseconds since the epoch, or
    NaN (an Invalid Date), which is [None]. *)
Definition Date : Type := option Z.

(** The fields of a Creation.  In memory the identifier is a string and the
    timestamp a [Date]; in a JSON document the timestamp is a JSON value,
    and in a file offered for import the identifier may be missing. *)
Record CreationOf (I T : Type) : Type := mkCreation {
  id : I;
  name : string;
  html : string;
  originalImage : option string;
  timestamp : T;
  identifications : option (list IdentificationResult)
}.

Definition Creation : Type := CreationOf string Date.

(** [{ ...c, timestamp: t }] *)
Definition with_timestamp {I T T'} (c : CreationOf I T) (t : T') : CreationOf I T' :=
  mkCreation (id c) (name c) (html c) (originalImage c) t (identifications c).

(** [{ ...c, timestamp: t, id: i }] *)
Definition with_timestamp_id {I T I' T'} (c : CreationOf I T) (t : T') (i : I')
  : CreationOf I' T' :=
  mkCreation i (name c) (html c) (originalImage c) t (identifications c).

(* ================================================================== *)
(** ** Dates and JSON documents *)

(** The largest time value of a [Date], 8.64e15 ms. *)
Definition maxTime : Z := 8640000000000000.

Definition TimeClip (t : Z) : Date :=
  if (Z.abs t <=? maxTime)%Z then Some t else None.

Definition valid_time (t : Z) : Prop := (Z.abs t <= maxTime)%Z.

(** The built-in conversions between a time value and its date-time
    string: [Date.prototype.toISOString] and [Date.parse] ([None] is NaN). *)
Class DateCodec : Type := {
  toISOString : Z -> string;
  Date_parse : string -> option Z
}.

(** What ECMAScript requires of them: a date written by [toISOString]
    parses back to the same time value (and the string is not empty). *)
Class DateCodecLaws (codec : DateCodec) : Prop := {
  Date_parse_toISOString :
    forall t, valid_time t -> Date_parse (toISOString t) = Some t;
  toISOString_truthy :
    forall t, valid_time t -> truthy (toISOString t) = true
}.

(** JSON documents are modelled as what [JSON.parse] makes of their text,
    read at the types the program declares for them ([Creation[]] for the
    stored history, a Creation for an imported file).  The one property
    the code reads dynamically is [timestamp], which [JSON.stringify]
    writes as a string or [null] and which a foreign file may hold as
    anything or not at all; an imported file may also lack its [id]. *)

(** The value of a [timestamp] property in a JSON document. *)
Inductive JsonTimestamp : Type :=
| TsAbsent                 (* no such property: reads as [undefined] *)
| TsNull
| TsString (s : string)
| TsNumber (n : Z).

(** A Creation as [JSON.stringify] writes it and [JSON.parse] reads it. *)
Definition StoredCreation : Type := CreationOf string JsonTimestamp.

(** The object in a file offered for import. *)
Definition ImportedJSON : Type := CreationOf (option string) JsonTimestamp.

Section DateJSON.
Context {codec : DateCodec}.

(** [Date.prototype.toJSON]: the ISO string, or [null] for an Invalid Date. *)
Definition Date_toJSON (d : Date) : JsonTimestamp :=
  match d with
  | Some t => TsString (toISOString t)
  | None => TsNull
  end.

(** [new Date(v)] on a value read from JSON. *)
Definition new_Date (v : JsonTimestamp) : Date :=
  match v with
  | TsAbsent => None
  | TsNull => Some 0%Z
  | TsString s => Date_parse s
  | TsNumber n => TimeClip n
  end.

(** [v || Date.now()] *)
Definition timestamp_or_now (v : JsonTimestamp) (now : Z) : JsonTimestamp :=
  match v with
  | TsAbsent | TsNull => TsNumber now
  | TsString s => if truthy s then v else TsNumber now
  | TsNumber n => if (n =? 0)%Z then TsNumber now else v
  end.

(** The document [JSON.stringify] writes for one Creation. *)
Definition Creation_toJSON (c : Creation) : StoredCreation :=
  with_timestamp c (Date_toJSON (timestamp c)).

End DateJSON.

(** The item under the key ['gemini_app_history'] of local storage. *)
Inductive StorageItem : Type :=
| NoItem                                  (* [getItem] gives [null] or the empty string *)
| Unreadable                              (* a text on which [JSON.parse] or the map over it throws *)
| Stored (doc : list StoredCreation).     (* the text of a JSON array of Creation objects *)

(** The part of a browser [File] the application reads: its name, its MIME
    type, and what a [FileReader] makes of it. *)
Record File : Type := mkFile {
  file_name : string;
  file_type : string;
  readAsDataURL : settled string
}.

(* ================================================================== *)
(** ** The remote services *)

Definition GEMINI_CODE_MODEL : string := "gemini-3-pro-preview".
Definition GEMINI_IMAGE_MODEL : string := "gemini-3-pro-image-preview".
Definition FLUX_API_BASE : string :=
  "https://black-forest-labs-flux-2-klein-9b.hf.space/gradio_api/call/generate".

Record InlineData : Type := mkInlineData {
  data : option string;
  mimeType : string
}.

Record Part : Type := mkPart {
  part_text : option string;
  inlineData : option InlineData
}.

(** The three constant [config] objects of the service layer. *)
Inductive GenConfig : Type :=
| IdentificationConfig   (* IDENTIFICATION_INSTRUCTION, JSON response schema *)
| CodeConfig             (* SYSTEM_INSTRUCTION, temperature, thinking budget *)
| ImageConfig.           (* aspect ratio 1:1, size 1K *)

Record GenRequest : Type := mkRequest {
  model : string;
  parts : list Part;
  config : GenConfig
}.

Record Candidate : Type := mkCandidate {
  content_parts : option (list Part)
}.

Record GenResponse : Type := mkResponse {
  text : option string;
  candidates : list Candidate
}.

(** The response of the job-submission POST. *)
Record PostResponse : Type := mkPost {
  ok : bool;
  json_event_id : settled string     (* [await postResponse.json()], field [event_id] *)
}.

(** [data.output.data[0]] of a stream message. *)
Inductive FluxOutput : Type :=
| OutString (s : string)
| OutObject (url : option string).

Record SseData : Type := mkSseData {
  msg : string;
  success : bool;
  output0 : option FluxOutput   (* [None]: [output], [output.data] or its first entry is falsy *)
}.

(** What the event source delivers. *)
Inductive SseEvent : Type :=
| SseMessage (parsed : option SseData)   (* [None]: [JSON.parse(event.data)] throws *)
| SseError (err : exn).

(** The environment of one handler run. *)
Record World : Type := mkWorld {
  ai_generateContent : GenRequest -> settled GenResponse;
  JSON_parse_identifications : string -> settled (list IdentificationResult);
  fetch_FLUX : string -> settled PostResponse;
  (** the events the stream at a URL delivers before the 60 s timer fires *)
  eventSource : string -> list SseEvent;
  crypto_randomUUID : string;
  Date_now : Z
}.

(* ================================================================== *)
(** ** Browser state and the monad of asynchronous functions *)

(** Observable effects besides React state, in the order they happen. *)
Inductive Effect : Type :=
| ConsoleError (what : string)
| ConsoleWarn (what : string)
| Alert (what : string)
| Download (filename : string) (doc : StoredCreation)
| CallGenerateContent (req : GenRequest)
| CallFetch (prompt : string)
| OpenEventSource (url : string)
| CloseEventSource.

Record Browser : Type := mkBrowser {
  activeCreation : option Creation;
  isGenerating : bool;
  history : list Creation;
  hasApiKey : option bool;
  identificationsState : list IdentificationResult;
  localStorage : StorageItem;
  effects : list Effect
}.

Definition Async (A : Type) : Type := Browser -> settled A * Browser.

Definition ret {A} (a : A) : Async A := fun b => (Fulfilled a, b).

Definition throw {A} (e : exn) : Async A := fun b => (Rejected e, b).

(** [await]: the continuation runs when the promise is fulfilled; a
    rejection is thrown at the [await]. *)
Definition bind {A B} (m : Async A) (k : A -> Async B) : Async B :=
  fun b =>
    match m b with
    | (Fulfilled a, b') => k a b'
    | (Rejected e, b') => (Rejected e, b')
    end.

(** [try { body } catch (error) { handler }]. *)
Definition try_catch {A} (body : Async A) (handler : exn -> Async A) : Async A :=
  fun b =>
    match body b with
    | (Fulfilled a, b') => (Fulfilled a, b')
    | (Rejected e, b') => handler e b'
    end.

(** A promise that is already settled. *)
Definition settle {A} (r : settled A) : Async A := fun b => (r, b).

Definition exec {A} (m : Async A) (b : Browser) : Browser := snd (m b).
Definition result {A} (m : Async A) (b : Browser) : settled A := fst (m b).

Declare Scope async_scope.
Delimit Scope async_scope with async.
Notation "x <- m ;; k" := (bind m (fun x => k))
  (at level 61, m at next level, right associativity) : async_scope.
Notation "m ;; k" := (bind m (fun _ => k))
  (at level 61, right associativity) : async_scope.
Local Open Scope async_scope.

Definition perform (e : Effect) : Async unit := fun b =>
  (Fulfilled tt,
   mkBrowser (activeCreation b) (isGenerating b) (history b) (hasApiKey b)
             (identificationsState b) (localStorage b) (effects b ++ [e])%list).

Definition setActiveCreation (c : option Creation) : Async unit := fun b =>
  (Fulfilled tt,
   mkBrowser c (isGenerating b) (history b) (hasApiKey b)
             (identificationsState b) (localStorage b) (effects b)).

Definition setIsGenerating (v : bool) : Async unit := fun b =>
  (Fulfilled tt,
   mkBrowser (activeCreation b) v (history b) (hasApiKey b)
             (identificationsState b) (localStorage b) (effects b)).

(** [setHistory(prev => f(prev))]. *)
Definition setHistory (f : list Creation -> list Creation) : Async unit := fun b =>
  (Fulfilled tt,
   mkBrowser (activeCreation b) (isGenerating b) (f (history b)) (hasApiKey b)
             (identificationsState b) (localStorage b) (effects b)).

Definition setHasApiKey (v : bool) : Async unit := fun b =>
  (Fulfilled tt,
   mkBrowser (activeCreation b) (isGenerating b) (history b) (Some v)
             (identificationsState b) (localStorage b) (effects b)).

Definition setItem (v : StorageItem) : Async unit := fun b =>
  (Fulfilled tt,
   mkBrowser (activeCreation b) (isGenerating b) (history b) (hasApiKey b)
             (identificationsState b) v (effects b)).

Definition getItem : Async StorageItem := fun b => (Fulfilled (localStorage b), b).

Definition getHistory : Async (list Creation) := fun b => (Fulfilled (history b), b).

Definition setIdentifications (l : list IdentificationResult) : Async unit := fun b =>
  (Fulfilled tt,
   mkBrowser (activeCreation b) (isGenerating b) (history b) (hasApiKey b)
             l (localStorage b) (effects b)).

(** [await ai.models.generateContent(req)]. *)
Definition generateContent (w : World) (req : GenRequest) : Async GenResponse :=
  perform (CallGenerateContent req) ;; settle (ai_generateContent w req).

(* ================================================================== *)
(** ** Service layer *)

Definition opt_truthy (o : option string) : bool :=
  match o with Some s => truthy s | None => false end.

(** How a template literal renders a possibly undefined string. *)
Definition interpolate (o : option string) : string :=
  match o with Some s => s | None => "undefined" end.

(** *** identifyImage *)

(** The argument of [generateContent] in [identifyImage].  The image data
    is whatever [fileToBase64] produced, which is [undefined] for a data
    URL without a comma. *)
Definition identify_request (fileBase64 : option string) (mimeType : string) : GenRequest :=
  {| model := GEMINI_CODE_MODEL;
     parts := [ mkPart (Some "Perform a complete YOLO26 visual scan and identify all functional components.") None;
                mkPart None (Some (mkInlineData fileBase64 mimeType)) ];
     config := IdentificationConfig |}.

Definition identifyImage (w : World) (fileBase64 : option string) (mimeType : string)
  : Async (list IdentificationResult) :=
  try_catch
    (response <- generateContent w (identify_request fileBase64 mimeType) ;;
     settle (JSON_parse_identifications w
               (match text response with
                | Some t => or_else t "[]"
                | None => "[]"
                end)))
    (fun error =>
       perform (ConsoleError "Identification Error:") ;;
       if isQuotaOrAuthError error then throw (Error KEY_RESET_REQUIRED)
       else ret []).

(** *** generateAIImage *)

Fixpoint first_inlineData (ps : list Part) : option InlineData :=
  match ps with
  | [] => None
  | p :: rest =>
      match inlineData p with
      | Some d => Some d
      | None => first_inlineData rest
      end
  end.

(** The argument of [generateContent] in [generateAIImage]. *)
Definition image_request (prompt : string) : GenRequest :=
  {| model := GEMINI_IMAGE_MODEL;
     parts := [ mkPart (Some ("Generate a photorealistic, cinematic, and highly detailed artistic concept of: "
                              ++ prompt ++ ". High resolution, 4k, digital art style.")) None ];
     config := ImageConfig |}.

Definition generateAIImage (w : World) (prompt : string) : Async string :=
  try_catch
    (response <- generateContent w (image_request prompt) ;;
     match candidates response with
     | candidate :: _ =>
         match content_parts candidate with
         | Some ps =>
             match first_inlineData ps with
             | Some d => ret ("data:image/png;base64," ++ interpolate (data d))
             | None => throw (Error "No image data returned from Gemini Pro Image")
             end
         | None => throw (Error "No image data returned from Gemini Pro Image")
         end
     | [] => throw (Error "No image data returned from Gemini Pro Image")
     end)
    (fun error =>
       perform (ConsoleError "Gemini Image Generation Error:") ;;
       if isQuotaOrAuthError error then throw (Error KEY_RESET_REQUIRED)
       else throw error).

(** *** generateFluxImage *)

Definition output_truthy (o : FluxOutput) : bool :=
  match o with OutString s => truthy s | OutObject _ => true end.

(** The body of [eventSource.onmessage] on a parsed message: [None] leaves
    the promise pending; otherwise the first [resolve] or [reject] reached
    settles it. *)
Definition onmessage (d : SseData) : option (settled string) :=
  if String.eqb (msg d) "process_completed" then
    Some (match (if success d then output0 d else None) with
          | Some o =>
              if output_truthy o then
                match o with
                | OutString s => Fulfilled s
                | OutObject u =>
                    if opt_truthy u then Fulfilled (interpolate u)
                    else Rejected (Error "FLUX generation failed to return image data")
                end
              else Rejected (Error "FLUX generation failed to return image data")
          | None => Rejected (Error "FLUX generation failed to return image data")
          end)
  else None.

(** How the promise around the event source settles: the first message
    that completes the job, the first stream error, or, when the events
    run out, the 60 s timer. *)
Fixpoint sse_settles (events : list SseEvent) : settled string :=
  match events with
  | [] => Rejected (Error "FLUX generation timed out")
  | SseError err :: _ => Rejected err
  | SseMessage None :: rest => sse_settles rest
  | SseMessage (Some d) :: rest =>
      match onmessage d with
      | Some r => r
      | None => sse_settles rest
      end
  end.

(** [new Promise((resolve, reject) => { ... })] of [generateFluxImage]. *)
Definition sse_promise (w : World) (resultUrl : string) : Async string :=
  perform (OpenEventSource resultUrl) ;;
  perform CloseEventSource ;;
  settle (sse_settles (eventSource w resultUrl)).

(** The [try] block ends in [return new Promise(...)] and the [catch]
    block in [return generateAIImage(prompt)]: both hand a promise back
    without awaiting it, so each block computes a promise, and the promise
    of [generateFluxImage] then follows the one it was handed. *)
Definition generateFluxImage (w : World) (prompt : string) : Async string :=
  handed <-
    try_catch
      (perform (CallFetch prompt) ;;
       postResponse <- settle (fetch_FLUX w prompt) ;;
       if negb (ok postResponse) then throw (Error "Failed to initiate FLUX generation")
       else
         event_id <- settle (json_event_id postResponse) ;;
         let resultUrl := FLUX_API_BASE ++ "/" ++ event_id in
         ret (sse_promise w resultUrl))
      (fun error =>
         perform (ConsoleError "FLUX Generation Error, falling back to Gemini:") ;;
         ret (generateAIImage w prompt)) ;;
  handed.

(** *** bringToLife *)

Fixpoint drop (n : nat) (s : string) : string :=
  match n, s with
  | O, _ => s
  | S n', String _ s' => drop n' s'
  | S _, EmptyString => EmptyString
  end.

(** [.replace(/^```html\s*/i, '')] *)
Definition replace_leading_html_fence (s : string) : string :=
  if startsWith (toLowerCase s) "```html" then trimStart (drop 7 s) else s.

(** [.replace(/^```\s*/, '')] *)
Definition replace_leading_fence (s : string) : string :=
  if startsWith s "```" then trimStart (drop 3 s) else s.

(** [.replace(/```$/, '')] *)
Definition replace_trailing_fence (s : string) : string :=
  if endsWith s "```" then substring 0 (String.length s - 3) s else s.

Definition strip_fences (raw : string) : string :=
  trim (replace_trailing_fence (replace_leading_fence (replace_leading_html_fence raw))).

(** The argument of [generateContent] in [bringToLife]. *)
Definition bringToLife_request (prompt : string)
    (fileBase64 mimeType detectionContext : option string) : GenRequest :=
  let finalPrompt :=
    if opt_truthy fileBase64
    then "Exhaustively analyze this visual input. Identify all interactive components, data states, and navigation patterns. Build a sophisticated, single-page application that brings this concept to life with high interactivity and polished aesthetics."
    else or_else prompt "Create a state-of-the-art interactive experience." in
  let finalPrompt :=
    if opt_truthy detectionContext
    then finalPrompt ++ LF ++ LF ++ "SUPPLEMENTAL VISION DATA (Eburon-YOLO26 Engine Results):"
         ++ LF ++ interpolate detectionContext
    else finalPrompt in
  let parts :=
    mkPart (Some finalPrompt) None
    :: (if opt_truthy fileBase64 && opt_truthy mimeType
        then [ mkPart None (Some (mkInlineData fileBase64 (interpolate mimeType))) ]
        else []) in
  {| model := GEMINI_CODE_MODEL; parts := parts; config := CodeConfig |}.

(** [response.text || "<!-- Failed to generate content -->"] *)
Definition response_text (response : GenResponse) : string :=
  match text response with
  | Some t => or_else t "<!-- Failed to generate content -->"
  | None => "<!-- Failed to generate content -->"
  end.

Definition bringToLife (w : World) (prompt : string)
    (fileBase64 mimeType detectionContext : option string) : Async string :=
  try_catch
    (response <- generateContent w
        (bringToLife_request prompt fileBase64 mimeType detectionContext) ;;
     ret (strip_fences (response_text response)))
    (fun error =>
       perform (ConsoleError "Gemini Generation Error:") ;;
       if isQuotaOrAuthError error then throw (Error KEY_RESET_REQUIRED)
       else throw error).

(* ================================================================== *)
(** ** Root component (App) *)

Fixpoint after_comma (s : string) : option string :=
  match s with
  | EmptyString => None
  | String c s' => if Ascii.eqb c ","%char then Some s' else after_comma s'
  end.

Fixpoint until_comma (s : string) : string :=
  match s with
  | EmptyString => EmptyString
  | String c s' => if Ascii.eqb c ","%char then EmptyString else String c (until_comma s')
  end.

(** [s.split(',')[1]] *)
Definition split_comma_1 (s : string) : option string :=
  option_map until_comma (after_comma s).

Definition fileToBase64 (file : File) : Async (option string) :=
  r <- settle (readAsDataURL file) ;;
  ret (split_comma_1 r).

Definition handleError (error : exn) : Async unit :=
  if String.eqb (message error) KEY_RESET_REQUIRED then
    setHasApiKey false ;;
    setIsGenerating false
  else
    perform (ConsoleError "Failed to generate:") ;;
    perform (Alert "An unexpected error occurred. Please try again or check your connection.") ;;
    setIsGenerating false.

Definition nonempty {A} (l : list A) : bool :=
  match l with [] => false | _ => true end.

Definition detection_line (d : IdentificationResult) : string :=
  "- " ++ label d ++ " (" ++ type d ++ "): " ++ description d.

(** The three variables the [try] block of [handleGenerate] declares. *)
Record Scan : Type := mkScan {
  imageBase64 : option string;
  scan_mimeType : option string;
  detections : list IdentificationResult
}.

(** The [if (file) { ... }] block of [handleGenerate]. *)
Definition scanFile (w : World) (file : option File) : Async Scan :=
  match file with
  | Some f =>
      imageBase64 <- fileToBase64 f ;;
      let mimeType := toLowerCase (file_type f) in
      detections <- identifyImage w imageBase64 mimeType ;;
      setIdentifications detections ;;
      ret (mkScan imageBase64 (Some mimeType) detections)
  | None => ret (mkScan None None [])
  end.

Definition detectionContext (detections : list IdentificationResult) : option string :=
  if nonempty detections
  then Some (join LF (map detection_line detections))
  else None.

(** The object literal [newCreation] of [handleGenerate]. *)
Definition newCreation (w : World) (promptText : string) (file : option File)
    (sc : Scan) (html : string) : Creation :=
  {| id := crypto_randomUUID w;
     name := match file with
             | Some f => file_name f
             | None => if truthy promptText then slice0 30 promptText
                       else "New Creation"
             end;
     html := html;
     originalImage :=
       if opt_truthy (imageBase64 sc) && opt_truthy (scan_mimeType sc)
       then Some ("data:" ++ interpolate (scan_mimeType sc) ++ ";base64,"
                  ++ interpolate (imageBase64 sc))
       else None;
     timestamp := Some (Date_now w);
     identifications :=
       if nonempty (detections sc) then Some (detections sc) else None |}.

Definition handleGenerate (w : World) (promptText : string) (file : option File)
  : Async unit :=
  setIsGenerating true ;;
  setActiveCreation None ;;
  setIdentifications [] ;;
  try_catch
    (sc <- scanFile w file ;;
     html <- bringToLife w promptText (imageBase64 sc) (scan_mimeType sc)
               (detectionContext (detections sc)) ;;
     if truthy html then
       let newCreation := newCreation w promptText file sc html in
       setActiveCreation (Some newCreation) ;;
       setHistory (fun prev => newCreation :: prev) ;;
       setIsGenerating false
     else ret tt)
    handleError.

Definition flux_page (imageDataUrl prompt : string) : string :=
  dq "<!DOCTYPE html><html><head><script src='https://cdn.tailwindcss.com'></script></head><body class='bg-zinc-950 flex flex-col items-center justify-center min-h-screen p-8 text-white font-sans'><div class='max-w-2xl w-full bg-zinc-900 rounded-3xl overflow-hidden shadow-2xl border border-zinc-800 animate-in fade-in zoom-in-95 duration-1000'><img src='"
  ++ imageDataUrl
  ++ dq "' class='w-full aspect-square object-cover' /><div class='p-8 text-center'><h1 class='text-2xl font-bold mb-4'>Eburon-FLUX Engine</h1><p class='text-zinc-400 mb-6 font-light italic'>'"
  ++ prompt
  ++ dq "'</p><button onclick='window.print()' class='bg-white text-black px-8 py-3 rounded-full font-bold hover:bg-zinc-200 transition-all hover:scale-105 active:scale-95 shadow-lg'>Download Artifact</button></div></div></body></html>".

(** The object literal [newCreation] of [handleGenerateImage]. *)
Definition newImageCreation (w : World) (prompt imageDataUrl : string) : Creation :=
  {| id := crypto_randomUUID w;
     name := "FLUX: " ++ slice0 20 prompt ++ "...";
     html := flux_page imageDataUrl prompt;
     originalImage := Some imageDataUrl;
     timestamp := Some (Date_now w);
     identifications := None |}.

Definition handleGenerateImage (w : World) (prompt : string) : Async unit :=
  setIsGenerating true ;;
  setActiveCreation None ;;
  try_catch
    (imageDataUrl <- generateFluxImage w prompt ;;
     let newCreation := newImageCreation w prompt imageDataUrl in
     setActiveCreation (Some newCreation) ;;
     setHistory (fun prev => newCreation :: prev) ;;
     setIsGenerating false)
    handleError.

(** [onReset] of the preview: [setActiveCreation(null); setIsGenerating(false)]. *)
Definition onReset : Async unit :=
  setActiveCreation None ;;
  setIsGenerating false.

(** *** History: load, persist, import *)

(** One of the bundled example URLs, as [fetch] answers it. *)
Inductive ExampleFetch : Type :=
| FetchRejected (e : exn)
| NotOk                                   (* [!res.ok] *)
| JsonRejected (e : exn)                  (* [res.json()] rejects *)
| ExampleJson (data : ImportedJSON) (now : Z) (uuid : string).

(** [a || b] where [a] may be undefined. *)
Definition opt_or_else (a : option string) (b : string) : string :=
  match a with Some s => or_else s b | None => b end.

Section History.
Context {codec : DateCodec}.

(** [{ ...data, timestamp: new Date(data.timestamp || Date.now()),
       id: data.id || crypto.randomUUID() }] *)
Definition normalise (data : ImportedJSON) (now : Z) (uuid : string) : Creation :=
  with_timestamp_id data
    (new_Date (timestamp_or_now (timestamp data) now))
    (opt_or_else (id data) uuid).

(** [await Promise.all(exampleUrls.map(...))]; which rejection wins does
    not matter to the caller, the first in the list is taken. *)
Fixpoint load_examples (fs : list ExampleFetch) : settled (list (option Creation)) :=
  match fs with
  | [] => Fulfilled []
  | FetchRejected e :: _ => Rejected e
  | JsonRejected e :: _ => Rejected e
  | f :: rest =>
      match load_examples rest with
      | Rejected e => Rejected e
      | Fulfilled l =>
          Fulfilled (match f with
                     | ExampleJson data now uuid => Some (normalise data now uuid)
                     | _ => None
                     end :: l)
      end
  end.

(** [examples.filter(e => e !== null)] *)
Fixpoint validExamples (l : list (option Creation)) : list Creation :=
  match l with
  | [] => []
  | Some c :: rest => c :: validExamples rest
  | None :: rest => validExamples rest
  end.

(** [parsed.map(item => ({ ...item, timestamp: new Date(item.timestamp) }))] *)
Definition rehydrate (doc : list StoredCreation) : list Creation :=
  map (fun item => with_timestamp item (new_Date (timestamp item))) doc.

Definition initHistory (examples : list ExampleFetch) : Async unit :=
  saved <- getItem ;;
  loadedHistory <-
    match saved with
    | NoItem => ret []
    | Unreadable => perform (ConsoleError "Failed to load history") ;; ret []
    | Stored doc => ret (rehydrate doc)
    end ;;
  if nonempty loadedHistory then setHistory (fun _ => loadedHistory)
  else
    try_catch
      (loaded <- settle (load_examples examples) ;;
       setHistory (fun _ => validExamples loaded))
      (fun _ => perform (ConsoleError "Failed to load examples")).

(** [JSON.stringify(history)] *)
Definition JSON_stringify_history (h : list Creation) : list StoredCreation :=
  map Creation_toJSON h.

(** The effect that runs after every change of [history];
    [storage_full] says whether [localStorage.setItem] throws. *)
Definition persistEffect (storage_full : bool) : Async unit :=
  history <- getHistory ;;
  if nonempty history then
    if storage_full then perform (ConsoleWarn "Local storage full")
    else setItem (Stored (JSON_stringify_history history))
  else ret tt.

(** [reader.onload] of the import input; [parsed] is what
    [JSON.parse] makes of the file, [None] when it throws. *)
Definition importOnload (w : World) (parsed : option ImportedJSON) : Async unit :=
  match parsed with
  | None => perform (ConsoleError "Import error")
  | Some parsed =>
      let imported := normalise parsed (Date_now w) (crypto_randomUUID w) in
      setHistory (fun prev =>
        if existsb (fun c => String.eqb (id c) (id imported)) prev
        then prev else imported :: prev) ;;
      setActiveCreation (Some imported)
  end.

(** *** LivePreview: export *)

Definition isAlnum (c : ascii) : bool :=
  let n := nat_of_ascii c in
  ((48 <=? n) && (n <=? 57) || (65 <=? n) && (n <=? 90) || (97 <=? n) && (n <=? 122))%nat.

(** [name.replace(/[^a-z0-9]/gi, '_')] *)
Fixpoint replace_non_alnum (s : string) : string :=
  match s with
  | EmptyString => EmptyString
  | String c s' => String (if isAlnum c then c else "_"%char) (replace_non_alnum s')
  end.

Definition handleExport (creation : option Creation) : Async unit :=
  match creation with
  | None => ret tt
  | Some creation =>
      perform (Download (toLowerCase (replace_non_alnum (name creation)) ++ "_artifact.json")
                        (Creation_toJSON creation))
  end.

(** An exported document, read back by [JSON.parse]. *)
Definition read_back (doc : StoredCreation) : ImportedJSON :=
  with_timestamp_id doc (timestamp doc) (Some (id doc)).

End History.

(* ================================================================== *)
(** ** Input component *)

Module InputArea.

Record State : Type := mkState {
  text : string;
  interimText : string;
  file : option File;
  isRecording : bool;
  isMenuOpen : bool;
  finalTranscriptRef : string
}.

Record Props : Type := mkProps {
  isGenerating : bool;
  disabled : bool
}.

(** What the component asks of its parent. *)
Inductive Callback : Type :=
| onGenerate (prompt : string) (file : option File)
| onGenerateImage (prompt : string).

Definition combinedText (st : State) : string :=
  trim (text st ++ (if truthy (interimText st) then " " ++ interimText st else EmptyString)).

Definition is_some {A} (o : option A) : bool :=
  match o with Some _ => true | None => false end.

Definition handleSubmit (props : Props) (st : State) : State * list Callback :=
  let combinedText := combinedText st in
  if (truthy combinedText || is_some (file st))
     && negb (isGenerating props) && negb (disabled props)
  then
    (mkState EmptyString EmptyString None (isRecording st) (isMenuOpen st) EmptyString,
     [onGenerate combinedText (file st)])
  else (st, []).

(** The [disabled] attribute of the submit button. *)
Definition submit_disabled (props : Props) (st : State) : bool :=
  (negb (truthy (trim (text st))) && negb (truthy (trim (interimText st)))
   && negb (is_some (file st)))
  || isGenerating props || disabled props.

End InputArea.

(* ================================================================== *)
(** ** The ECMAScript date-time string

    [toISOString] writes [YYYY-MM-DDTHH:mm:ss.sssZ], with the expanded
    year [+YYYYYY] or [-YYYYYY] outside 0..9999.  The parser below reads
    exactly that form, the one the application's documents hold; strings
    in another form, which engines read by rules of their own, are NaN
    here. *)

Module IsoDate.
Local Open Scope Z_scope.

Definition msPerDay : Z := 86400000.

Definition Day (t : Z) : Z := t / msPerDay.
Definition TimeWithinDay (t : Z) : Z := t mod msPerDay.

Definition DayFromYear (y : Z) : Z :=
  365 * (y - 1970) + (y - 1969) / 4 - (y - 1901) / 100 + (y - 1601) / 400.

Definition InLeapYear (y : Z) : Z :=
  if (y mod 4 =? 0) && (negb (y mod 100 =? 0) || (y mod 400 =? 0)) then 1 else 0.

(** The year a day falls in: an estimate from the mean length of a year,
    moved by one where the estimate misses. *)
Definition YearFromDay (d : Z) : Z :=
  let y := 1970 + (d * 400) / 146097 in
  if d <? DayFromYear y then y - 1
  else if DayFromYear (y + 1) <=? d then y + 1
  else y.

(** The day within the year on which month [m] (0 to 11) starts; 12 gives
    the length of the year. *)
Definition month_start (leap m : Z) : Z :=
  match m with
  | 0 => 0
  | 1 => 31
  | 2 => 59 + leap
  | 3 => 90 + leap
  | 4 => 120 + leap
  | 5 => 151 + leap
  | 6 => 181 + leap
  | 7 => 212 + leap
  | 8 => 243 + leap
  | 9 => 273 + leap
  | 10 => 304 + leap
  | 11 => 334 + leap
  | _ => 365 + leap
  end.

Definition MonthFromDay (leap dwy : Z) : Z :=
  if dwy <? 31 then 0
  else if dwy <? 59 + leap then 1
  else if dwy <? 90 + leap then 2
  else if dwy <? 120 + leap then 3
  else if dwy <? 151 + leap then 4
  else if dwy <? 181 + leap then 5
  else if dwy <? 212 + leap then 6
  else if dwy <? 243 + leap then 7
  else if dwy <? 273 + leap then 8
  else if dwy <? 304 + leap then 9
  else if dwy <? 334 + leap then 10
  else 11.

Definition digit (d : Z) : ascii := ascii_of_nat (48 + Z.to_nat d).

Definition digit_value (c : ascii) : option Z :=
  let n := nat_of_ascii c in
  if ((48 <=? n) && (n <=? 57))%nat then Some (Z.of_nat n - 48) else None.

(** [v] in [n] decimal digits, most significant first. *)
Fixpoint pad (n : nat) (v : Z) : string :=
  match n with
  | O => EmptyString
  | S n' => String (digit (v / 10 ^ Z.of_nat n')) (pad n' (v mod 10 ^ Z.of_nat n'))
  end.

Definition year_string (y : Z) : string :=
  if (0 <=? y) && (y <=? 9999) then pad 4 y
  else ((if (y <? 0)%Z then "-" else "+") ++ pad 6 (Z.abs y))%string.

Record Fields : Type := mkFields {
  year : Z;
  month : Z;       (* 1 to 12 *)
  date : Z;        (* 1 to 31 *)
  hours : Z;
  minutes : Z;
  seconds : Z;
  millis : Z
}.

(** [YearFromTime], [MonthFromTime], [DateFromTime], [HourFromTime], ... *)
Definition fields (t : Z) : Fields :=
  let d := Day t in
  let tw := TimeWithinDay t in
  let y := YearFromDay d in
  let leap := InLeapYear y in
  let dwy := d - DayFromYear y in
  let m := MonthFromDay leap dwy in
  {| year := y;
     month := m + 1;
     date := dwy - month_start leap m + 1;
     hours := tw / 3600000;
     minutes := tw / 60000 mod 60;
     seconds := tw / 1000 mod 60;
     millis := tw mod 1000 |}.

Definition format (f : Fields) : string :=
  (year_string (year f) ++ "-" ++ pad 2 (month f) ++ "-" ++ pad 2 (date f)
   ++ "T" ++ pad 2 (hours f) ++ ":" ++ pad 2 (minutes f) ++ ":" ++ pad 2 (seconds f)
   ++ "." ++ pad 3 (millis f) ++ "Z")%string.

Definition toISOString (t : Z) : string := format (fields t).

(** Reads [n] digits off the front of [s]. *)
Fixpoint read_digits (n : nat) (acc : Z) (s : string) : option (Z * string) :=
  match n with
  | O => Some (acc, s)
  | S n' =>
      match s with
      | String c s' =>
          match digit_value c with
          | Some d => read_digits n' (acc * 10 + d) s'
          | None => None
          end
      | EmptyString => None
      end
  end.

(** Reads the character [c] off the front of [s]. *)
Definition expect (c : ascii) (s : string) : option string :=
  match s with
  | String c' s' => if Ascii.eqb c c' then Some s' else None
  | EmptyString => None
  end.

Definition read_year (s : string) : option (Z * string) :=
  match s with
  | String c s' =>
      if Ascii.eqb c "+"%char then read_digits 6 0 s'
      else if Ascii.eqb c "-"%char then
        match read_digits 6 0 s' with
        | Some (y, rest) => if y =? 0 then None else Some (- y, rest)
        | None => None
        end
      else read_digits 4 0 s
  | EmptyString => None
  end.

Definition andThen {A B} (o : option A) (k : A -> option B) : option B :=
  match o with Some a => k a | None => None end.

Definition parse_fields (s : string) : option Fields :=
  andThen (read_year s) (fun '(y, s) =>
  andThen (expect "-" s) (fun s =>
  andThen (read_digits 2 0 s) (fun '(mo, s) =>
  andThen (expect "-" s) (fun s =>
  andThen (read_digits 2 0 s) (fun '(da, s) =>
  andThen (expect "T" s) (fun s =>
  andThen (read_digits 2 0 s) (fun '(h, s) =>
  andThen (expect ":" s) (fun s =>
  andThen (read_digits 2 0 s) (fun '(mi, s) =>
  andThen (expect ":" s) (fun s =>
  andThen (read_digits 2 0 s) (fun '(se, s) =>
  andThen (expect "." s) (fun s =>
  andThen (read_digits 3 0 s) (fun '(ms, s) =>
  andThen (expect "Z" s) (fun s =>
  match s with
  | EmptyString => Some (mkFields y mo da h mi se ms)
  | _ => None
  end)))))))))))))).

(** Illegal element values make the string unreadable. *)
Definition legal (f : Fields) : bool :=
  let leap := InLeapYear (year f) in
  (1 <=? month f) && (month f <=? 12)
  && (1 <=? date f)
  && (date f <=? month_start leap (month f) - month_start leap (month f - 1))
  && ((hours f <=? 23)
      || ((hours f =? 24) && (minutes f =? 0) && (seconds f =? 0) && (millis f =? 0)))
  && (minutes f <=? 59) && (seconds f <=? 59).

(** [MakeDate(MakeDay(year, month, date), MakeTime(hour, min, sec, ms))] *)
Definition MakeDate (f : Fields) : Z :=
  (DayFromYear (year f) + month_start (InLeapYear (year f)) (month f - 1) + (date f - 1))
  * msPerDay
  + hours f * 3600000 + minutes f * 60000 + seconds f * 1000 + millis f.

Definition parse (s : string) : option Z :=
  match parse_fields s with
  | Some f => if legal f then TimeClip (MakeDate f) else None
  | None => None
  end.

End IsoDate.

(** The browser's codec, as far as the application's documents go. *)
#[export] Instance iso_codec : DateCodec :=
  {| toISOString := IsoDate.toISOString;
     Date_parse := IsoDate.parse |}.

(* ================================================================== *)
(** ** Vocabulary of the statements *)

(** [b] after the effects [l]. *)
Definition log (l : list Effect) (b : Browser) : Browser :=
  mkBrowser (activeCreation b) (isGenerating b) (history b) (hasApiKey b)
            (identificationsState b) (localStorage b) (effects b ++ l)%list.

Definition is_alert (e : Effect) : bool :=
  match e with Alert _ => true | _ => false end.

(** The alerts shown so far. *)
Definition alerts (b : Browser) : list Effect := filter is_alert (effects b).

Definition is_generateContent (e : Effect) : bool :=
  match e with CallGenerateContent _ => true | _ => false end.

(** The requests sent to the hosted model so far. *)
Definition model_calls (b : Browser) : list Effect :=
  filter is_generateContent (effects b).

(** A run from [b] to [b'] that touched nothing of the application state
    but the scan results, and showed no alert. *)
Record quiet (b b' : Browser) : Prop := mkQuiet {
  quiet_activeCreation : activeCreation b' = activeCreation b;
  quiet_isGenerating : isGenerating b' = isGenerating b;
  quiet_history : history b' = history b;
  quiet_hasApiKey : hasApiKey b' = hasApiKey b;
  quiet_localStorage : localStorage b' = localStorage b;
  quiet_alerts : alerts b' = alerts b
}.

Definition Quiet {A} (m : Async A) : Prop := forall b, quiet b (snd (m b)).

(** The awaited steps of the [try] block: the POST, its status, its body. *)
Definition submission (w : World) (prompt : string) : settled string :=
  match fetch_FLUX w prompt with
  | Rejected e => Rejected e
  | Fulfilled postResponse =>
      if ok postResponse then json_event_id postResponse
      else Rejected (Error "Failed to initiate FLUX generation")
  end.

(** The state in which the [try] block of [handleGenerate] starts. *)
Definition begin_generate (b : Browser) : Browser :=
  mkBrowser None true (history b) (hasApiKey b) [] (localStorage b) (effects b).

(** The state in which the [try] block of [handleGenerateImage] starts. *)
Definition begin_generateImage (b : Browser) : Browser :=
  mkBrowser None true (history b) (hasApiKey b) (identificationsState b)
            (localStorage b) (effects b).

(** The success branch: the new Creation is active and heads the history. *)
Definition created (c : Creation) (b : Browser) : Browser :=
  mkBrowser (Some c) false (c :: history b) (hasApiKey b)
            (identificationsState b) (localStorage b) (effects b).

(** How [identifyImage] answers a failure inside its [try] block. *)
Definition soft_failure (e : exn) : settled (list IdentificationResult) :=
  if isQuotaOrAuthError e then Rejected (Error KEY_RESET_REQUIRED) else Fulfilled [].

(** How [bringToLife] and [generateAIImage] rethrow. *)
Definition reclassify (e : exn) : exn :=
  if isQuotaOrAuthError e then Error KEY_RESET_REQUIRED else e.

(** The identifiers and the timestamps of a history, in order. *)
Definition ids (h : list Creation) : list string := map (fun c => id c) h.
Definition timestamps (h : list Creation) : list Date := map (fun c => timestamp c) h.

(** What a record becomes on the way through storage. *)
Definition through_storage {codec : DateCodec} (c : Creation) : Creation :=
  with_timestamp c (new_Date (Date_toJSON (timestamp c))).

(** Some character of [s] is not white space. *)
Fixpoint has_ink (s : string) : bool :=
  match s with
  | EmptyString => false
  | String c s' => negb (isWhiteSpace c) || has_ink s'
  end.

(** The gated "Upgrade Required" view is what [App] renders when
    [hasApiKey === false]. *)
Definition gated (b : Browser) : Prop := hasApiKey b = Some false.

(** A time value a [Date] can hold. *)
Definition valid_Date (d : Date) : Prop :=
  exists t, d = Some t /\ valid_time t.

(** [needle] occurs in [s]. *)
Definition Substring (needle s : string) : Prop :=
  exists pre post, s = pre ++ needle ++ post.

(* ================================================================== *)
(** ** Scenarios *)

Module Scenario.

Definition browser0 : Browser :=
  mkBrowser None false [] (Some true) [] NoItem [].

(** A hosted model that answers by kind of request. *)
Definition world_of (identify code image : settled GenResponse)
    (post : settled PostResponse) (events : list SseEvent) : World :=
  {| ai_generateContent := fun req =>
       match config req with
       | IdentificationConfig => identify
       | CodeConfig => code
       | ImageConfig => image
       end;
     JSON_parse_identifications := fun _ => Fulfilled [];
     fetch_FLUX := fun _ => post;
     eventSource := fun _ => events;
     crypto_randomUUID := "3b241101-e2bb-4255-8caf-4136c566a962";
     Date_now := 1700000000000 |}.

Definition says (t : string) : settled GenResponse :=
  Fulfilled (mkResponse (Some t) []).

Definition image_response : settled GenResponse :=
  Fulfilled (mkResponse None
    [ mkCandidate (Some [ mkPart None (Some (mkInlineData (Some "iVBORw0KGgo=") "image/png")) ]) ]).

Definition job_accepted : settled PostResponse :=
  Fulfilled (mkPost true (Fulfilled "a1b2c3")).

(** The error event of an [EventSource] carries no message. *)
Definition stream_error : exn := mkExn EmptyString EmptyString 0.

Definition network_error : exn := mkExn "Failed to fetch" EmptyString 0.

Definition quota_error : exn :=
  mkExn "You exceeded your current quota" "RESOURCE_EXHAUSTED" 429.

Definition heartbeat : SseEvent :=
  SseMessage (Some (mkSseData "heartbeat" false None)).

(** The job is accepted, then the stream fails. *)
Definition stream_fails : World :=
  world_of (says "[]") (says "<p>hi</p>") image_response job_accepted
           [heartbeat; SseError stream_error].

(** The job is accepted, and nothing completes it within 60 s. *)
Definition stream_times_out : World :=
  world_of (says "[]") (says "<p>hi</p>") image_response job_accepted
           [heartbeat; heartbeat].

(** The job submission itself fails. *)
Definition submit_fails : World :=
  world_of (says "[]") (says "<p>hi</p>") image_response (Rejected network_error) [].

Definition fence : string := "```".

(** A model answer in a fenced block, closed by a line break. *)
Definition fenced_answer : string :=
  fence ++ "html" ++ LF ++ "<p>hi</p>" ++ LF ++ fence ++ LF.

(** A model answer whose opening fence follows a blank. *)
Definition indented_answer : string :=
  " " ++ fence ++ "html" ++ LF ++ "<p>hi</p>".

Definition answers (t : string) : World :=
  world_of (says "[]") (says t) image_response job_accepted [].

Definition a_png : File :=
  mkFile "sketch.png" "image/PNG" (Fulfilled "data:image/png;base64,iVBORw0KGgo=").

(** A file the browser knows no MIME type for. *)
Definition untyped_file : File :=
  mkFile "notes" EmptyString (Fulfilled "data:application/octet-stream;base64,aGVsbG8=").

(** Identification fails on the network; generation works. *)
Definition scan_offline : World :=
  world_of (Rejected network_error) (says "<p>hi</p>") image_response job_accepted [].

(** Every model request is refused for quota. *)
Definition over_quota : World :=
  world_of (Rejected quota_error) (Rejected quota_error) (Rejected quota_error)
           (Rejected network_error) [].

(** Identification works; generation is refused for quota. *)
Definition code_over_quota : World :=
  world_of (says "[]") (Rejected quota_error) image_response job_accepted [].

Definition a_creation (i : string) (ts : Date) : Creation :=
  mkCreation i "demo" "<p>hi</p>" None ts None.

End Scenario.

(* ================================================================== *)
(** ** Root component: API key selection and focus *)

(** [window.aistudio], as far as [App] uses it; a method may be missing. *)
Record AIStudio : Type := mkAIStudio {
  hasSelectedApiKey : option (settled bool);
  openSelectKey : option (settled unit)
}.

(** [checkKey], run once on load. *)
Definition checkKey (aistudio : option AIStudio) : Async unit :=
  match aistudio with
  | Some a =>
      match hasSelectedApiKey a with
      | Some answer =>
          hasKey <- settle answer ;;
          setHasApiKey hasKey
      | None => setHasApiKey true
      end
  | None => setHasApiKey true
  end.

Definition handleOpenKeySelection (aistudio : option AIStudio) : Async unit :=
  match aistudio with
  | Some a =>
      match openSelectKey a with
      | Some answer =>
          settle answer ;;
          setHasApiKey true
      | None => ret tt
      end
  | None => ret tt
  end.

(** [const isFocused = !!activeCreation || isGenerating] *)
Definition isFocused (b : Browser) : bool :=
  InputArea.is_some (activeCreation b) || isGenerating b.

(* ================================================================== *)
(** ** Input component: the other handlers *)

Module InputEvents.

(** One entry of [event.results], from [event.resultIndex] on. *)
Record Segment : Type := mkSegment {
  transcript : string;
  isFinal : bool
}.

(** [final += (final.endsWith(' ') || final === '' ? '' : ' ') + transcript] *)
Definition append_final (final transcript : string) : string :=
  final
  ++ (if endsWith final " " || String.eqb final EmptyString then EmptyString else " ")
  ++ transcript.

(** The loop of [recognition.onresult]; [interim] and [final] are its two
    local variables. *)
Fixpoint onresult_loop (segments : list Segment) (interim final : string)
    (st : InputArea.State) : InputArea.State :=
  match segments with
  | [] => st
  | seg :: rest =>
      if isFinal seg then
        let final := append_final final (transcript seg) in
        onresult_loop rest interim final
          (InputArea.mkState final EmptyString (InputArea.file st)
             (InputArea.isRecording st) (InputArea.isMenuOpen st) final)
      else
        let interim := interim ++ transcript seg in
        onresult_loop rest interim final
          (InputArea.mkState (InputArea.text st) interim (InputArea.file st)
             (InputArea.isRecording st) (InputArea.isMenuOpen st)
             (InputArea.finalTranscriptRef st))
  end.

Definition onresult (segments : list Segment) (st : InputArea.State) : InputArea.State :=
  onresult_loop segments EmptyString (InputArea.finalTranscriptRef st) st.

Definition onerror (st : InputArea.State) : InputArea.State :=
  InputArea.mkState (InputArea.text st) (InputArea.interimText st) (InputArea.file st)
    false (InputArea.isMenuOpen st) (InputArea.finalTranscriptRef st).

Definition onend (st : InputArea.State) : InputArea.State :=
  InputArea.mkState (InputArea.text st) EmptyString (InputArea.file st)
    false (InputArea.isMenuOpen st) (InputArea.finalTranscriptRef st).

Definition handleTextChange (value : string) (st : InputArea.State) : InputArea.State :=
  InputArea.mkState value (InputArea.interimText st) (InputArea.file st)
    (InputArea.isRecording st) (InputArea.isMenuOpen st) value.

(** What [toggleRecording] asks of the recognizer. *)
Inductive RecognizerCall : Type := Start | Stop.

(** [supported] says whether [recognitionRef.current] was set, that is,
    whether the browser has a [SpeechRecognition] constructor. *)
Definition toggleRecording (supported : bool) (st : InputArea.State)
  : InputArea.State * list RecognizerCall :=
  if InputArea.isRecording st then
    (st, if supported then [Stop] else [])
  else
    (InputArea.mkState (InputArea.text st) (InputArea.interimText st) (InputArea.file st)
       true (InputArea.isMenuOpen st) (InputArea.text st),
     if supported then [Start] else []).

(** [files] is [e.target.files]. *)
Definition handleFileChange (files : list File) (st : InputArea.State) : InputArea.State :=
  match files with
  | f :: _ =>
      InputArea.mkState (InputArea.text st) (InputArea.interimText st) (Some f)
        (InputArea.isRecording st) false (InputArea.finalTranscriptRef st)
  | [] => st
  end.

(** The button on the file chip: [setFile(null)]. *)
Definition removeFile (st : InputArea.State) : InputArea.State :=
  InputArea.mkState (InputArea.text st) (InputArea.interimText st) None
    (InputArea.isRecording st) (InputArea.isMenuOpen st) (InputArea.finalTranscriptRef st).

(** The paper clip: [setIsMenuOpen(!isMenuOpen)]. *)
Definition toggleMenu (st : InputArea.State) : InputArea.State :=
  InputArea.mkState (InputArea.text st) (InputArea.interimText st) (InputArea.file st)
    (InputArea.isRecording st) (negb (InputArea.isMenuOpen st))
    (InputArea.finalTranscriptRef st).

(** What a handler does besides updating the state. *)
Record Output : Type := mkOutput {
  callbacks : list InputArea.Callback;
  alerted : list string;
  recognizer : list RecognizerCall
}.

Definition silent : Output := mkOutput [] [] [].

Definition handleAIImageClick (props : InputArea.Props) (st : InputArea.State)
  : InputArea.State * Output :=
  let combinedText := InputArea.combinedText st in
  if truthy combinedText && negb (InputArea.isGenerating props) then
    (InputArea.mkState EmptyString EmptyString (InputArea.file st)
       (InputArea.isRecording st) false EmptyString,
     mkOutput [InputArea.onGenerateImage combinedText] [] [])
  else
    (st,
     mkOutput []
       ["Please enter a description in the text field first to generate an AI image."] []).

Definition handleKeyDown (props : InputArea.Props) (key : string) (shiftKey : bool)
    (st : InputArea.State) : InputArea.State * list InputArea.Callback :=
  if String.eqb key "Enter" && negb shiftKey then InputArea.handleSubmit props st
  else (st, []).

(** What can happen to the component. *)
Inductive Event : Type :=
| TextChange (value : string)
| Result (segments : list Segment)
| RecognitionError
| RecognitionEnd
| ToggleRecording
| FileChange (files : list File)
| RemoveFile
| ToggleMenu
| Submit
| AIImageClick
| KeyDown (key : string) (shiftKey : bool).

(** One event, under the props of the render it happens in. *)
Definition step (supported : bool) (st : InputArea.State)
    (pe : InputArea.Props * Event) : InputArea.State :=
  let (props, ev) := pe in
  match ev with
  | TextChange value => handleTextChange value st
  | Result segments => onresult segments st
  | RecognitionError => onerror st
  | RecognitionEnd => onend st
  | ToggleRecording => fst (toggleRecording supported st)
  | FileChange files => handleFileChange files st
  | RemoveFile => removeFile st
  | ToggleMenu => toggleMenu st
  | Submit => fst (InputArea.handleSubmit props st)
  | AIImageClick => fst (handleAIImageClick props st)
  | KeyDown key shiftKey => fst (handleKeyDown props key shiftKey st)
  end.

(** The state the component mounts in. *)
Definition initial : InputArea.State :=
  InputArea.mkState EmptyString EmptyString None false false EmptyString.

Definition run (supported : bool) (events : list (InputArea.Props * Event)) : InputArea.State :=
  fold_left (step supported) events initial.

End InputEvents.

(* ================================================================== *)
(** ** Preview component *)

Module LivePreview.

(** [setLoadingStep(prev => (prev < 3 ? prev + 1 : prev))], every 2 s while
    loading. *)
Definition tick (loadingStep : nat) : nat :=
  if (loadingStep <? 3)%nat then (loadingStep + 1)%nat else loadingStep.

(** The step shown after [n] ticks of the interval; loading starts at 0. *)
Definition loadingStep_after (n : nat) : nat := Nat.iter n tick 0%nat.

(** The props of one [LoadingStep]. *)
Record StepProps : Type := mkStep {
  step_text : string;
  active : bool;
  completed : bool
}.

Definition loadingSteps (loadingStep : nat) : list StepProps :=
  [ mkStep "YOLO26 Image Scan" (loadingStep =? 0)%nat (0 <? loadingStep)%nat;
    mkStep "Component Identification" (loadingStep =? 1)%nat (1 <? loadingStep)%nat;
    mkStep "UI Logic Generation" (loadingStep =? 2)%nat (2 <? loadingStep)%nat;
    mkStep "Artifact Compilation" (loadingStep =? 3)%nat (3 <? loadingStep)%nat ].

(** The effect on [creation]: split view is on when there is an original. *)
Definition showSplitView_default (creation : option Creation) : bool :=
  match creation with
  | Some c => opt_truthy (originalImage c)
  | None => false
  end.

(** How the original is drawn in the split view. *)
Inductive OriginalView : Type := PdfRenderer | Img.

Definition originalView (originalImage : string) : OriginalView :=
  if startsWith originalImage "data:application/pdf" then PdfRenderer else Img.

(** What the body of the preview shows. *)
Inductive Body : Type :=
| Loading
| Frame (html : string)
| Blank.

Definition body (creation : option Creation) (isLoading : bool) : Body :=
  if isLoading then Loading
  else match creation with
       | Some c => if truthy (html c) then Frame (html c) else Blank
       | None => Blank
       end.

(** The preview as [App] mounts it: [creation={activeCreation}],
    [isLoading={isGenerating}]. *)
Definition body_of (b : Browser) : Body := body (activeCreation b) (isGenerating b).

(** The header shows the insights button for a truthy [identifications];
    an empty array is truthy. *)
Definition showsInsightsButton (c : Creation) : bool :=
  InputArea.is_some (identifications c).

End LivePreview.

(* ================================================================== *)
(** ** Vocabulary of the further statements *)

(** How many of the effects so far satisfy [p]. *)
Definition count (p : Effect -> bool) (b : Browser) : nat :=
  length (filter p (effects b)).

Definition is_fetch (e : Effect) : bool :=
  match e with CallFetch _ => true | _ => false end.

Definition is_eventSource (e : Effect) : bool :=
  match e with OpenEventSource _ => true | _ => false end.

(** The first inline image of the first candidate, as [generateAIImage]
    looks for it. *)
Definition first_image (response : GenResponse) : option InlineData :=
  match candidates response with
  | candidate :: _ =>
      match content_parts candidate with
      | Some ps => first_inlineData ps
      | None => None
      end
  | [] => None
  end.

(** A stream event that leaves the promise pending: a message that is not
    [process_completed], or one whose data does not parse. *)
Definition pending (ev : SseEvent) : bool :=
  match ev with
  | SseMessage None => true
  | SseMessage (Some d) => negb (String.eqb (msg d) "process_completed")
  | SseError _ => false
  end.

(** [s] holds no comma. *)
Fixpoint no_comma (s : string) : bool :=
  match s with
  | EmptyString => true
  | String c s' => negb (Ascii.eqb c ","%char) && no_comma s'
  end.

(** The character [c] occurs in [s]. *)
Fixpoint mentions (c : ascii) (s : string) : bool :=
  match s with
  | EmptyString => false
  | String a s' => Ascii.eqb a c || mentions c s'
  end.

(** A lower-case letter, a digit or an underscore. *)
Definition is_filename_char (c : ascii) : bool :=
  let n := nat_of_ascii c in
  ((48 <=? n) && (n <=? 57) || (97 <=? n) && (n <=? 122) || (n =? 95))%nat.

Fixpoint all_chars (p : ascii -> bool) (s : string) : bool :=
  match s with
  | EmptyString => true
  | String c s' => p c && all_chars p s'
  end.

(** An example URL whose [fetch] or whose body rejects. *)
Definition rejects (f : ExampleFetch) : bool :=
  match f with
  | FetchRejected _ | JsonRejected _ => true
  | _ => false
  end.

(** The records the answered example URLs give, in order. *)
Definition example_records {codec : DateCodec} (fs : list ExampleFetch) : list Creation :=
  flat_map (fun f => match f with
                     | ExampleJson data now uuid => [normalise data now uuid]
                     | _ => []
                     end) fs.

(** A timestamp value that [||] replaces by the current time. *)
Definition falsy_timestamp (v : JsonTimestamp) : bool :=
  match v with
  | TsAbsent | TsNull => true
  | TsString s => negb (truthy s)
  | TsNumber n => (n =? 0)%Z
  end.

(** The transcripts of the final segments, in order. *)
Definition finals (segments : list InputEvents.Segment) : list string :=
  map InputEvents.transcript (filter InputEvents.isFinal segments).


(* ================================================================== *)
(** * Properties *)

(** ** Strings *)

Lemma startsWith_spec s needle :
  startsWith s needle = true <-> exists rest, s = needle ++ rest.
Proof.
  revert s. induction needle as [| a n IH]; intros s; simpl.
  - split; [ intros _; now exists s | reflexivity ].
  - destruct s as [| b s'].
    + split; [ discriminate | intros [rest H]; discriminate ].
    + rewrite andb_true_iff, Ascii.eqb_eq, IH.
      split.
      * intros [-> [rest ->]]. now exists rest.
      * intros [rest H]. injection H as -> ->. split; [ reflexivity | now exists rest ].
Qed.

(** [includes] decides the substring relation. *)
Lemma includes_spec s needle :
  includes s needle = true <-> exists pre post, s = pre ++ needle ++ post.
Proof.
  induction s as [| c s' IH]; simpl.
  - rewrite orb_false_r, startsWith_spec. split.
    + intros [rest H]. now exists EmptyString, rest.
    + intros [pre [post H]]. destruct pre; [ now exists post | discriminate ].
  - rewrite orb_true_iff, startsWith_spec, IH. split.
    + intros [[rest H] | [pre [post H]]].
      * now exists EmptyString, rest.
      * exists (String c pre), post. simpl. now rewrite H.
    + intros [pre [post H]]. destruct pre as [| c' pre'].
      * left. now exists post.
      * right. simpl in H. injection H as _ H. now exists pre', post.
Qed.

(** ** The date-time string round trip *)

Module IsoDateFacts.
Import IsoDate.
Local Open Scope Z_scope.

Lemma DayFromYear_step y :
  DayFromYear (y + 1) = DayFromYear y + 365 + InLeapYear y.
Proof.
  unfold DayFromYear, InLeapYear.
  destruct (y mod 4 =? 0) eqn:E4; destruct (y mod 100 =? 0) eqn:E100;
    destruct (y mod 400 =? 0) eqn:E400; cbv [andb orb negb];
    rewrite ?Z.eqb_eq, ?Z.eqb_neq in *;
    Z.div_mod_to_equations; lia.
Qed.

Lemma InLeapYear_range y : 0 <= InLeapYear y <= 1.
Proof. unfold InLeapYear; destruct (_ && _); lia. Qed.

Lemma YearFromDay_bounds d :
  DayFromYear (YearFromDay d) <= d < DayFromYear (YearFromDay d + 1).
Proof.
  unfold YearFromDay.
  set (y := 1970 + d * 400 / 146097).
  assert (Hlo : DayFromYear (y - 1) <= d).
  { unfold DayFromYear, y. Z.div_mod_to_equations. lia. }
  assert (Hhi : d < DayFromYear (y + 2)).
  { unfold DayFromYear, y. Z.div_mod_to_equations. lia. }
  destruct (d <? DayFromYear y) eqn:E1.
  - apply Z.ltb_lt in E1. replace (y - 1 + 1) with y by lia. lia.
  - apply Z.ltb_ge in E1.
    destruct (DayFromYear (y + 1) <=? d) eqn:E2.
    + apply Z.leb_le in E2. replace (y + 1 + 1) with (y + 2) by lia. lia.
    + apply Z.leb_gt in E2. lia.
Qed.

Lemma MonthFromDay_bounds leap dwy :
  0 <= leap <= 1 -> 0 <= dwy < 365 + leap ->
  let m := MonthFromDay leap dwy in
  0 <= m <= 11
  /\ month_start leap m <= dwy < month_start leap (m + 1)
  /\ month_start leap (m + 1) - month_start leap m <= 31.
Proof.
  intros Hl Hd. unfold MonthFromDay.
  repeat match goal with
         | |- context [?a <? ?b] =>
             let E := fresh "E" in
             destruct (a <? b) eqn:E;
             [ apply Z.ltb_lt in E | apply Z.ltb_ge in E ]
         end;
    repeat match goal with
           | |- context [month_start _ (?a + 1)] =>
               let r := eval cbv in (a + 1) in change (a + 1) with r
           end;
    cbn [month_start]; lia.
Qed.

Lemma digit_value_digit d : 0 <= d < 10 -> digit_value (digit d) = Some d.
Proof.
  intros H.
  assert (d = 0 \/ d = 1 \/ d = 2 \/ d = 3 \/ d = 4 \/ d = 5 \/ d = 6
          \/ d = 7 \/ d = 8 \/ d = 9) as C by lia.
  repeat destruct C as [C | C]; subst d; reflexivity.
Qed.

Lemma digit_not_sign d :
  0 <= d < 10 ->
  Ascii.eqb (digit d) "+"%char = false /\ Ascii.eqb (digit d) "-"%char = false.
Proof.
  intros H.
  assert (d = 0 \/ d = 1 \/ d = 2 \/ d = 3 \/ d = 4 \/ d = 5 \/ d = 6
          \/ d = 7 \/ d = 8 \/ d = 9) as C by lia.
  repeat destruct C as [C | C]; subst d; split; reflexivity.
Qed.

Lemma read_digits_pad n : forall v acc rest,
  0 <= v < 10 ^ Z.of_nat n ->
  read_digits n acc (pad n v ++ rest)%string = Some (acc * 10 ^ Z.of_nat n + v, rest).
Proof.
  induction n as [| n IH]; intros v acc rest Hv.
  - simpl in *. f_equal. f_equal. lia.
  - assert (Hp : 0 < 10 ^ Z.of_nat n) by (apply Z.pow_pos_nonneg; lia).
    assert (Hs : 10 ^ Z.of_nat (S n) = 10 * 10 ^ Z.of_nat n).
    { rewrite Nat2Z.inj_succ, Z.pow_succ_r by lia. reflexivity. }
    rewrite Hs in *.
    cbn [pad read_digits String.append].
    assert (Hq : 0 <= v / 10 ^ Z.of_nat n < 10).
    { split.
      - apply Z.div_pos; lia.
      - apply Z.div_lt_upper_bound; lia. }
    rewrite (digit_value_digit Hq).
    rewrite IH by (apply Z.mod_pos_bound; lia).
    f_equal. f_equal.
    pose proof (Z.div_mod v (10 ^ Z.of_nat n) ltac:(lia)). nia.
Qed.

Lemma expect_here c rest : expect c (String c rest) = Some rest.
Proof. unfold expect. now rewrite Ascii.eqb_refl. Qed.

Lemma read_year_string y rest :
  -999999 <= y <= 999999 ->
  read_year (year_string y ++ rest)%string = Some (y, rest).
Proof.
  intros Hy. unfold year_string.
  destruct ((0 <=? y) && (y <=? 9999)) eqn:E.
  - apply andb_true_iff in E. destruct E as [E1 E2].
    apply Z.leb_le in E1. apply Z.leb_le in E2.
    assert (Hd : 0 <= y / 10 ^ Z.of_nat 3 < 10).
    { change (10 ^ Z.of_nat 3) with 1000. Z.div_mod_to_equations. lia. }
    destruct (digit_not_sign Hd) as [Hplus Hminus].
    pose proof (@read_digits_pad 4 y 0 rest) as R.
    cbn [pad String.append] in *. unfold read_year.
    rewrite Hplus, Hminus. rewrite R; [ reflexivity | ].
    change (10 ^ Z.of_nat 4) with 10000. lia.
  - destruct (y <? 0) eqn:N.
    + apply Z.ltb_lt in N.
      cbn [String.append read_year]. change (Ascii.eqb "-" "+") with false. cbv iota.
      change (Ascii.eqb "-" "-") with true. cbv iota.
      rewrite read_digits_pad by (change (10 ^ Z.of_nat 6) with 1000000; lia).
      replace (0 * 10 ^ Z.of_nat 6 + Z.abs y) with (Z.abs y) by lia.
      destruct (Z.abs y =? 0) eqn:Z0.
      * apply Z.eqb_eq in Z0. lia.
      * f_equal. f_equal. lia.
    + apply Z.ltb_ge in N.
      cbn [String.append read_year]. change (Ascii.eqb "+" "+") with true. cbv iota.
      rewrite read_digits_pad by (change (10 ^ Z.of_nat 6) with 1000000; lia).
      f_equal. f_equal. lia.
Qed.

Lemma parse_fields_format f :
  -999999 <= year f <= 999999 ->
  0 <= month f < 100 -> 0 <= date f < 100 ->
  0 <= hours f < 100 -> 0 <= minutes f < 100 -> 0 <= seconds f < 100 ->
  0 <= millis f < 1000 ->
  parse_fields (format f) = Some f.
Proof.
  intros Hy Hmo Hda Hh Hmi Hse Hms.
  unfold format, parse_fields.
  rewrite read_year_string by assumption. cbn [andThen].
  repeat (cbn [String.append];
          rewrite expect_here; cbn [andThen];
          try (rewrite read_digits_pad
                 by (first [ change (10 ^ Z.of_nat 2) with 100
                           | change (10 ^ Z.of_nat 3) with 1000 ]; lia);
               cbn [andThen])).
  destruct f; cbn in *. reflexivity.
Qed.

Lemma fields_spec t :
  valid_time t ->
  let f := fields t in
  -999999 <= year f <= 999999
  /\ 1 <= month f <= 12
  /\ 1 <= date f <= month_start (InLeapYear (year f)) (month f)
                    - month_start (InLeapYear (year f)) (month f - 1)
  /\ date f <= 31
  /\ 0 <= hours f <= 23 /\ 0 <= minutes f <= 59 /\ 0 <= seconds f <= 59
  /\ 0 <= millis f <= 999
  /\ MakeDate f = t.
Proof.
  unfold valid_time, maxTime. intros Ht.
  unfold fields, MakeDate. cbn [year month date hours minutes seconds millis].
  set (d := Day t). set (tw := TimeWithinDay t).
  pose proof (YearFromDay_bounds d) as Hy.
  set (y := YearFromDay d) in *.
  rewrite DayFromYear_step in Hy.
  pose proof (InLeapYear_range y) as Hl.
  set (leap := InLeapYear y) in *.
  assert (Hdwy : 0 <= d - DayFromYear y < 365 + leap) by lia.
  pose proof (MonthFromDay_bounds Hl Hdwy) as Hm. cbv zeta in Hm.
  set (dwy := d - DayFromYear y) in *.
  set (m := MonthFromDay leap dwy) in *.
  replace (m + 1 - 1) with m by lia.
  assert (Htw : 0 <= tw < 86400000 /\ t = d * 86400000 + tw).
  { unfold tw, d, TimeWithinDay, Day, msPerDay. Z.div_mod_to_equations. lia. }
  assert (Hd : -100000000 <= d <= 100000000) by lia.
  assert (Hyr : -999999 <= y <= 999999).
  { unfold dwy in Hdwy. unfold DayFromYear in Hdwy. Z.div_mod_to_equations. lia. }
  unfold msPerDay.
  repeat split; try lia; try (Z.div_mod_to_equations; lia).
Qed.

Lemma legal_fields t : valid_time t -> legal (fields t) = true.
Proof.
  intros Ht. destruct (fields_spec Ht) as (Hy & Hmo & Hda & Hda' & Hh & Hmi & Hse & Hms & _).
  unfold legal.
  repeat (apply andb_true_iff; split); try (apply Z.leb_le; lia).
  apply orb_true_iff. left. apply Z.leb_le. lia.
Qed.

Lemma parse_toISOString t : valid_time t -> parse (toISOString t) = Some t.
Proof.
  intros Ht. unfold parse, toISOString.
  destruct (fields_spec Ht) as (Hy & Hmo & Hda & Hda' & Hh & Hmi & Hse & Hms & Hmk).
  rewrite parse_fields_format by lia.
  rewrite (legal_fields Ht), Hmk.
  unfold TimeClip. unfold valid_time in Ht.
  apply Z.leb_le in Ht. now rewrite Ht.
Qed.

Lemma toISOString_nonempty t : truthy (toISOString t) = true.
Proof.
  unfold toISOString, format, year_string.
  destruct (_ && _); [ | destruct (_ <? _) ]; reflexivity.
Qed.

End IsoDateFacts.

(** The date-time string codec meets the round-trip requirement. *)
#[export] Instance iso_codec_laws : DateCodecLaws iso_codec.
Proof.
  split.
  - exact IsoDateFacts.parse_toISOString.
  - intros t _. exact (IsoDateFacts.toISOString_nonempty t).
Qed.

(** ** Runs that leave the application state alone *)

Unset Implicit Arguments.

Lemma quiet_refl b : quiet b b.
Proof. now split. Qed.

Lemma quiet_trans b1 b2 b3 : quiet b1 b2 -> quiet b2 b3 -> quiet b1 b3.
Proof. intros [] []; split; congruence. Qed.

Lemma quiet_log l b : forallb (fun e => negb (is_alert e)) l = true -> quiet b (log l b).
Proof.
  intros H. split; try reflexivity.
  unfold alerts, log; simpl. rewrite filter_app.
  replace (filter is_alert l) with (@nil Effect); [ apply app_nil_r | ].
  induction l as [| e l IH]; [ reflexivity | ].
  simpl in *. apply andb_true_iff in H. destruct H as [He Hl].
  destruct (is_alert e); [ discriminate | auto ].
Qed.

Lemma perform_log e b : perform e b = (Fulfilled tt, log [e] b).
Proof. reflexivity. Qed.

Lemma Quiet_ret A (a : A) : Quiet (ret a).
Proof. intros b. apply quiet_refl. Qed.

Lemma Quiet_throw A e : Quiet (@throw A e).
Proof. intros b. apply quiet_refl. Qed.

Lemma Quiet_settle A (r : settled A) : Quiet (settle r).
Proof. intros b. apply quiet_refl. Qed.

Lemma Quiet_perform e : is_alert e = false -> Quiet (perform e).
Proof.
  intros H b. rewrite perform_log. apply quiet_log. simpl. now rewrite H.
Qed.

Lemma Quiet_setIdentifications l : Quiet (setIdentifications l).
Proof. intros b. now split. Qed.

Lemma Quiet_bind A B (m : Async A) (k : A -> Async B) :
  Quiet m -> (forall a, Quiet (k a)) -> Quiet (bind m k).
Proof.
  intros Hm Hk b. unfold bind. specialize (Hm b).
  destruct (m b) as [[a | e] b']; simpl in *.
  - eapply quiet_trans; [ exact Hm | apply Hk ].
  - exact Hm.
Qed.

Lemma Quiet_try_catch A (body : Async A) (handler : exn -> Async A) :
  Quiet body -> (forall e, Quiet (handler e)) -> Quiet (try_catch body handler).
Proof.
  intros Hm Hk b. unfold try_catch. specialize (Hm b).
  destruct (body b) as [[a | e] b']; simpl in *.
  - exact Hm.
  - eapply quiet_trans; [ exact Hm | apply Hk ].
Qed.

Create HintDb quiet.
#[export] Hint Resolve Quiet_ret Quiet_throw Quiet_settle Quiet_setIdentifications : quiet.

Ltac quiet :=
  repeat first
    [ apply Quiet_bind; [ | intros ? ]
    | apply Quiet_try_catch; [ | intros ? ]
    | apply Quiet_perform; reflexivity
    | solve [ auto with quiet ]
    | match goal with
      | |- Quiet (if ?c then _ else _) => destruct c
      | |- Quiet (match ?x with _ => _ end) => destruct x
      end ].

Lemma Quiet_generateContent w req : Quiet (generateContent w req).
Proof. unfold generateContent. quiet. Qed.
#[export] Hint Resolve Quiet_generateContent : quiet.

Lemma Quiet_identifyImage w x m : Quiet (identifyImage w x m).
Proof. unfold identifyImage. quiet. Qed.

Lemma Quiet_bringToLife w p x m c : Quiet (bringToLife w p x m c).
Proof. unfold bringToLife. quiet. Qed.

Lemma Quiet_generateAIImage w p : Quiet (generateAIImage w p).
Proof. unfold generateAIImage. quiet. Qed.
#[export] Hint Resolve Quiet_identifyImage Quiet_bringToLife Quiet_generateAIImage : quiet.

Lemma Quiet_sse_promise w url : Quiet (sse_promise w url).
Proof. unfold sse_promise. quiet. Qed.
#[export] Hint Resolve Quiet_sse_promise : quiet.

(** ** generateFluxImage *)

(** Once the job is submitted the caller gets the stream's promise as it
    settles; the fallback runs only when the submission itself fails. *)
Lemma generateFluxImage_run w prompt b :
  generateFluxImage w prompt b =
  match submission w prompt with
  | Fulfilled event_id =>
      sse_promise w (FLUX_API_BASE ++ "/" ++ event_id) (log [CallFetch prompt] b)
  | Rejected _ =>
      generateAIImage w prompt
        (log [ConsoleError "FLUX Generation Error, falling back to Gemini:"]
             (log [CallFetch prompt] b))
  end.
Proof.
  unfold generateFluxImage, submission, bind, try_catch, settle, ret, throw.
  rewrite perform_log.
  destruct (fetch_FLUX w prompt) as [post | e]; simpl; [ | reflexivity ].
  destruct (ok post); simpl; [ | reflexivity ].
  destruct (json_event_id post); reflexivity.
Qed.

Lemma Quiet_generateFluxImage w p : Quiet (generateFluxImage w p).
Proof.
  intros b. rewrite generateFluxImage_run.
  destruct (submission w p).
  - eapply quiet_trans; [ | apply Quiet_sse_promise ].
    apply quiet_log. reflexivity.
  - eapply quiet_trans; [ | apply Quiet_generateAIImage ].
    eapply quiet_trans; apply quiet_log; reflexivity.
Qed.

Lemma Quiet_scanFile w file : Quiet (scanFile w file).
Proof. unfold scanFile, fileToBase64. quiet. Qed.
#[export] Hint Resolve Quiet_generateFluxImage Quiet_scanFile : quiet.

(** ** The handlers, case by case *)

Lemma handleGenerate_run w promptText file b :
  handleGenerate w promptText file b =
  match scanFile w file (begin_generate b) with
  | (Rejected e, b1) => handleError e b1
  | (Fulfilled sc, b1) =>
      match bringToLife w promptText (imageBase64 sc) (scan_mimeType sc)
                        (detectionContext (detections sc)) b1 with
      | (Rejected e, b2) => handleError e b2
      | (Fulfilled html, b2) =>
          if truthy html
          then (Fulfilled tt, created (newCreation w promptText file sc html) b2)
          else (Fulfilled tt, b2)
      end
  end.
Proof.
  unfold handleGenerate.
  change ((setIsGenerating true ;; setActiveCreation None ;; setIdentifications [] ;; ?k) b)
    with (k (begin_generate b)).
  unfold try_catch, bind.
  destruct (scanFile w file (begin_generate b)) as [[sc | e] b1]; [ | reflexivity ].
  destruct (bringToLife _ _ _ _ _ b1) as [[html | e] b2]; [ | reflexivity ].
  destruct (truthy html); reflexivity.
Qed.

Lemma handleGenerateImage_run w prompt b :
  handleGenerateImage w prompt b =
  match generateFluxImage w prompt (begin_generateImage b) with
  | (Rejected e, b1) => handleError e b1
  | (Fulfilled imageDataUrl, b1) =>
      (Fulfilled tt, created (newImageCreation w prompt imageDataUrl) b1)
  end.
Proof.
  unfold handleGenerateImage.
  change ((setIsGenerating true ;; setActiveCreation None ;; ?k) b)
    with (k (begin_generateImage b)).
  unfold try_catch, bind.
  destruct (generateFluxImage w prompt (begin_generateImage b)) as [[u | e] b1];
    reflexivity.
Qed.

Lemma handleError_key_reset e b :
  message e = KEY_RESET_REQUIRED ->
  handleError e b =
  (Fulfilled tt,
   mkBrowser (activeCreation b) false (history b) (Some false)
             (identificationsState b) (localStorage b) (effects b)).
Proof. intros H. unfold handleError. rewrite H. reflexivity. Qed.

Lemma handleError_other e b :
  message e <> KEY_RESET_REQUIRED ->
  handleError e b =
  (Fulfilled tt,
   mkBrowser (activeCreation b) false (history b) (hasApiKey b)
             (identificationsState b) (localStorage b)
             (effects b ++ [ConsoleError "Failed to generate:";
                            Alert "An unexpected error occurred. Please try again or check your connection."])).
Proof.
  intros H. unfold handleError.
  destruct (String.eqb_spec (message e) KEY_RESET_REQUIRED); [ contradiction | ].
  unfold bind, perform, setIsGenerating; simpl. now rewrite <- app_assoc.
Qed.

(** Whatever is thrown, [handleError] clears the generation flag. *)
Lemma handleError_clears e b : isGenerating (exec (handleError e) b) = false.
Proof.
  unfold exec, handleError. destruct (String.eqb _ _); reflexivity.
Qed.

(** ** The service functions, case by case *)

Lemma generateContent_run w req b :
  generateContent w req b = (ai_generateContent w req, log [CallGenerateContent req] b).
Proof. reflexivity. Qed.

Lemma identifyImage_run w fileBase64 mimeType b :
  identifyImage w fileBase64 mimeType b =
  let req := identify_request fileBase64 mimeType in
  let failed e :=
    (soft_failure e, log [ConsoleError "Identification Error:"] (log [CallGenerateContent req] b)) in
  match ai_generateContent w req with
  | Rejected e => failed e
  | Fulfilled response =>
      match JSON_parse_identifications w
              (match text response with Some t => or_else t "[]" | None => "[]" end) with
      | Rejected e => failed e
      | Fulfilled l => (Fulfilled l, log [CallGenerateContent req] b)
      end
  end.
Proof.
  unfold identifyImage, try_catch, bind at 1. rewrite generateContent_run.
  cbv zeta. unfold soft_failure.
  destruct (ai_generateContent w _) as [resp | e].
  - unfold settle. destruct (JSON_parse_identifications w _) as [l | e]; [ reflexivity | ].
    unfold bind. rewrite perform_log. destruct (isQuotaOrAuthError e); reflexivity.
  - unfold bind. rewrite perform_log. destruct (isQuotaOrAuthError e); reflexivity.
Qed.

Lemma bringToLife_run w prompt fileBase64 mimeType ctx b :
  bringToLife w prompt fileBase64 mimeType ctx b =
  let req := bringToLife_request prompt fileBase64 mimeType ctx in
  match ai_generateContent w req with
  | Rejected e =>
      (Rejected (reclassify e),
       log [ConsoleError "Gemini Generation Error:"] (log [CallGenerateContent req] b))
  | Fulfilled response =>
      (Fulfilled (strip_fences (response_text response)), log [CallGenerateContent req] b)
  end.
Proof.
  unfold bringToLife, try_catch, bind at 1. rewrite generateContent_run.
  cbv zeta. unfold reclassify.
  destruct (ai_generateContent w _) as [resp | e]; [ reflexivity | ].
  unfold bind. rewrite perform_log. destruct (isQuotaOrAuthError e); reflexivity.
Qed.

Lemma generateAIImage_rejected w prompt e b :
  ai_generateContent w (image_request prompt) = Rejected e ->
  generateAIImage w prompt b =
  (Rejected (reclassify e),
   log [ConsoleError "Gemini Image Generation Error:"]
       (log [CallGenerateContent (image_request prompt)] b)).
Proof.
  intros H. unfold generateAIImage, try_catch, bind at 1.
  rewrite generateContent_run, H. unfold reclassify, bind. rewrite perform_log.
  destruct (isQuotaOrAuthError e); reflexivity.
Qed.

Lemma reclassify_quota e :
  isQuotaOrAuthError e = true -> message (reclassify e) = KEY_RESET_REQUIRED.
Proof. intros H. unfold reclassify. now rewrite H. Qed.

Lemma alerts_log l b : alerts (log l b) = (alerts b ++ filter is_alert l)%list.
Proof. unfold alerts, log; simpl. apply filter_app. Qed.

Lemma model_calls_log l b :
  model_calls (log l b) = (model_calls b ++ filter is_generateContent l)%list.
Proof. unfold model_calls, log; simpl. apply filter_app. Qed.

(** ** Error classification (C4) *)

Lemma isQuotaOrAuthError_spec e :
  isQuotaOrAuthError e = true <->
  Substring "Requested entity was not found" (message e)
  \/ Substring "quota" (message e)
  \/ Substring "RESOURCE_EXHAUSTED" (message e)
  \/ status e = "RESOURCE_EXHAUSTED"
  \/ code e = 429%Z.
Proof.
  unfold isQuotaOrAuthError, Substring.
  rewrite !orb_true_iff, !includes_spec, String.eqb_eq, Z.eqb_eq. tauto.
Qed.

(** C4. When the request of [identifyImage] fails, the call raises the
    "key reset required" condition if the error is an authorization or
    quota error (its message contains one of the known substrings, its
    status is RESOURCE_EXHAUSTED, or its code is 429), and otherwise
    returns the empty list. *)
Theorem identifyImage_fails_soft_unless_quota w fileBase64 mimeType e b :
  ai_generateContent w (identify_request fileBase64 mimeType) = Rejected e ->
  let classified :=
    Substring "Requested entity was not found" (message e)
    \/ Substring "quota" (message e)
    \/ Substring "RESOURCE_EXHAUSTED" (message e)
    \/ status e = "RESOURCE_EXHAUSTED"
    \/ code e = 429%Z in
  (classified ->
   result (identifyImage w fileBase64 mimeType) b = Rejected (Error KEY_RESET_REQUIRED))
  /\ (~ classified ->
      result (identifyImage w fileBase64 mimeType) b = Fulfilled []).
Proof.
  intros H classified. unfold result. rewrite identifyImage_run. cbv zeta. rewrite H.
  unfold soft_failure. simpl. split; intros C.
  - apply isQuotaOrAuthError_spec in C. now rewrite C.
  - destruct (isQuotaOrAuthError e) eqn:E; [ | reflexivity ].
    apply isQuotaOrAuthError_spec in E. contradiction.
Qed.

Lemma identifyImage_fails_soft_unless_quota_witness :
  result (identifyImage Scenario.over_quota (Some "iVBORw0KGgo=") "image/png")
         Scenario.browser0 = Rejected (Error KEY_RESET_REQUIRED)
  /\ result (identifyImage Scenario.scan_offline (Some "iVBORw0KGgo=") "image/png")
            Scenario.browser0 = Fulfilled [].
Proof.
  split.
  - apply (proj1 (@identifyImage_fails_soft_unless_quota Scenario.over_quota
                    (Some "iVBORw0KGgo=") "image/png" Scenario.quota_error
                    Scenario.browser0 eq_refl)).
    right; right; right; left. reflexivity.
  - apply (proj2 (@identifyImage_fails_soft_unless_quota Scenario.scan_offline
                    (Some "iVBORw0KGgo=") "image/png" Scenario.network_error
                    Scenario.browser0 eq_refl)).
    intros C. apply isQuotaOrAuthError_spec in C. discriminate C.
Defined.

(** ** The key-reset signal (C3) *)

Lemma handleError_gates e b :
  message e = KEY_RESET_REQUIRED ->
  let b' := exec (handleError e) b in
  gated b' /\ isGenerating b' = false /\ alerts b' = alerts b.
Proof.
  intros H. unfold exec. rewrite (handleError_key_reset e b H). now repeat split.
Qed.

Lemma scanFile_identify_rejected w f url e b :
  readAsDataURL f = Fulfilled url ->
  ai_generateContent w
    (identify_request (split_comma_1 url) (toLowerCase (file_type f))) = Rejected e ->
  scanFile w (Some f) b =
  let b1 := log [ConsoleError "Identification Error:"]
              (log [CallGenerateContent
                      (identify_request (split_comma_1 url) (toLowerCase (file_type f)))] b) in
  if isQuotaOrAuthError e then (Rejected (Error KEY_RESET_REQUIRED), b1)
  else (Fulfilled (mkScan (split_comma_1 url) (Some (toLowerCase (file_type f))) []),
        snd (setIdentifications [] b1)).
Proof.
  intros Hf Hreq. unfold scanFile, fileToBase64, bind at 1 2, settle. rewrite Hf.
  unfold ret at 1. unfold bind at 1. rewrite identifyImage_run. cbv zeta. rewrite Hreq.
  unfold soft_failure. destruct (isQuotaOrAuthError e); reflexivity.
Qed.

(** C3. Whichever of [identifyImage], [bringToLife] and [generateAIImage]
    meets an error classified as an authorization or quota error, the
    handler that called it ends in the gated view ([hasApiKey] is false)
    with the generation flag cleared, and shows no alert. *)
Theorem key_reset_gates_the_application :
  (forall w promptText f url e b,
      readAsDataURL f = Fulfilled url ->
      ai_generateContent w
        (identify_request (split_comma_1 url) (toLowerCase (file_type f))) = Rejected e ->
      isQuotaOrAuthError e = true ->
      let b' := exec (handleGenerate w promptText (Some f)) b in
      gated b' /\ isGenerating b' = false /\ alerts b' = alerts b)
  /\ (forall w promptText file sc b1 e b,
      scanFile w file (begin_generate b) = (Fulfilled sc, b1) ->
      ai_generateContent w
        (bringToLife_request promptText (imageBase64 sc) (scan_mimeType sc)
           (detectionContext (detections sc))) = Rejected e ->
      isQuotaOrAuthError e = true ->
      let b' := exec (handleGenerate w promptText file) b in
      gated b' /\ isGenerating b' = false /\ alerts b' = alerts b)
  /\ (forall w prompt e0 e b,
      submission w prompt = Rejected e0 ->
      ai_generateContent w (image_request prompt) = Rejected e ->
      isQuotaOrAuthError e = true ->
      let b' := exec (handleGenerateImage w prompt) b in
      gated b' /\ isGenerating b' = false /\ alerts b' = alerts b).
Proof.
  split; [ | split ].
  - intros w p f url e b Hf Hreq Hq b'. subst b'. unfold exec.
    rewrite handleGenerate_run, (scanFile_identify_rejected w f url e _ Hf Hreq). cbv zeta.
    rewrite Hq.
    match goal with |- context [handleError ?x ?s] =>
      destruct (@handleError_gates x s eq_refl) as (G & F & A)
    end.
    unfold exec in *. repeat split; try assumption.
    rewrite A, !alerts_log. simpl. now rewrite !app_nil_r.
  - intros w p file sc b1 e b Hscan Hreq Hq b'. subst b'. unfold exec.
    rewrite handleGenerate_run, Hscan, bringToLife_run. cbv zeta. rewrite Hreq.
    match goal with |- context [handleError ?x ?s] =>
      destruct (@handleError_gates x s (reclassify_quota e Hq)) as (G & F & A)
    end.
    unfold exec in *. repeat split; try assumption.
    rewrite A, !alerts_log. simpl. rewrite !app_nil_r.
    pose proof (Quiet_scanFile w file (begin_generate b)) as Q.
    rewrite Hscan in Q. simpl in Q. now rewrite (quiet_alerts Q).
  - intros w p e0 e b Hsub Hreq Hq b'. subst b'. unfold exec.
    rewrite handleGenerateImage_run, generateFluxImage_run, Hsub.
    rewrite (generateAIImage_rejected w p e _ Hreq).
    match goal with |- context [handleError ?x ?s] =>
      destruct (@handleError_gates x s (reclassify_quota e Hq)) as (G & F & A)
    end.
    unfold exec in *. repeat split; try assumption.
    rewrite A, !alerts_log. simpl. now rewrite !app_nil_r.
Qed.

Lemma key_reset_gates_the_application_witness :
  (let b' := exec (handleGenerate Scenario.over_quota "a login form" (Some Scenario.a_png))
                  Scenario.browser0 in
   gated b' /\ isGenerating b' = false /\ alerts b' = [])
  /\ (let b' := exec (handleGenerate Scenario.code_over_quota "a login form" None)
                     Scenario.browser0 in
      gated b' /\ isGenerating b' = false /\ alerts b' = [])
  /\ (let b' := exec (handleGenerateImage Scenario.over_quota "a red kite")
                     Scenario.browser0 in
      gated b' /\ isGenerating b' = false /\ alerts b' = []).
Proof.
  destruct key_reset_gates_the_application as (H1 & H2 & H3).
  split; [ | split ].
  - exact (H1 Scenario.over_quota "a login form" Scenario.a_png
              "data:image/png;base64,iVBORw0KGgo=" Scenario.quota_error Scenario.browser0
              eq_refl eq_refl eq_refl).
  - exact (H2 Scenario.code_over_quota "a login form" None (mkScan None None [])
              (begin_generate Scenario.browser0) Scenario.quota_error Scenario.browser0
              eq_refl eq_refl eq_refl).
  - exact (H3 Scenario.over_quota "a red kite" Scenario.network_error Scenario.quota_error
              Scenario.browser0 eq_refl eq_refl eq_refl).
Defined.

(** ** Identification failures (C5) *)

(** C5. With an image attached and an identification request that fails
    with an error that is not an authorization or quota error, the handler
    still asks for the artifact, with a request built without detection
    context, and the Creation that results has no identification list. *)
Theorem identification_failure_does_not_block_generation
    w promptText f url e b :
  readAsDataURL f = Fulfilled url ->
  ai_generateContent w
    (identify_request (split_comma_1 url) (toLowerCase (file_type f))) = Rejected e ->
  isQuotaOrAuthError e = false ->
  let imageBase64 := split_comma_1 url in
  let mimeType := toLowerCase (file_type f) in
  let req := bringToLife_request promptText imageBase64 (Some mimeType) None in
  let b' := exec (handleGenerate w promptText (Some f)) b in
  model_calls b' =
    (model_calls b ++ [CallGenerateContent (identify_request imageBase64 mimeType);
                       CallGenerateContent req])%list
  /\ forall response,
       ai_generateContent w req = Fulfilled response ->
       truthy (strip_fences (response_text response)) = true ->
       exists c,
         activeCreation b' = Some c
         /\ history b' = c :: history b
         /\ html c = strip_fences (response_text response)
         /\ identifications c = None.
Proof.
  intros Hf Hreq Hq. cbv zeta. unfold exec.
  rewrite handleGenerate_run, (scanFile_identify_rejected w f url e _ Hf Hreq).
  cbv zeta. rewrite Hq, bringToLife_run. cbv zeta.
  cbn [imageBase64 scan_mimeType detections detectionContext nonempty].
  set (req := bringToLife_request _ _ _ _).
  destruct (ai_generateContent w req) as [response | e'] eqn:Hgen.
  - split.
    + destruct (truthy (strip_fences (response_text response)));
        unfold model_calls; simpl; rewrite !filter_app; simpl;
        now rewrite ?app_nil_r, <- ?app_assoc.
    + intros response' Heq Hhtml. injection Heq as <-. rewrite Hhtml.
      eexists. cbn [snd created activeCreation history]. repeat split.
  - split; [ | discriminate ].
    unfold handleError. destruct (String.eqb _ _);
      unfold model_calls; simpl; rewrite !filter_app; simpl;
      now rewrite ?app_nil_r, <- ?app_assoc.
Qed.

Lemma identification_failure_does_not_block_generation_witness :
  let b' := exec (handleGenerate Scenario.scan_offline "a login form" (Some Scenario.a_png))
                 Scenario.browser0 in
  exists c,
    activeCreation b' = Some c
    /\ history b' = [c]
    /\ html c = "<p>hi</p>"
    /\ identifications c = None.
Proof.
  exact (proj2 (identification_failure_does_not_block_generation
                  Scenario.scan_offline "a login form" Scenario.a_png
                  "data:image/png;base64,iVBORw0KGgo=" Scenario.network_error
                  Scenario.browser0 eq_refl eq_refl eq_refl)
               (mkResponse (Some "<p>hi</p>") []) eq_refl eq_refl).
Defined.

(** ** Successful generations (C2) *)

(** C2, as stated, fails: a generation whose service calls all succeed
    but whose artifact is the empty string constructs no Creation; the
    active artifact stays empty and the history is unchanged. *)
Lemma empty_artifact_creates_nothing :
  ~ (forall w promptText file b sc b1 html b2,
        scanFile w file (begin_generate b) = (Fulfilled sc, b1) ->
        bringToLife w promptText (imageBase64 sc) (scan_mimeType sc)
          (detectionContext (detections sc)) b1 = (Fulfilled html, b2) ->
        let b' := exec (handleGenerate w promptText file) b in
        exists c, activeCreation b' = Some c /\ history b' = c :: history b).
Proof.
  intros H.
  destruct (H (Scenario.answers Scenario.fence) "a login form" None Scenario.browser0
              (mkScan None None []) (begin_generate Scenario.browser0) EmptyString
              (log [CallGenerateContent (bringToLife_request "a login form" None None None)]
                   (begin_generate Scenario.browser0))
              eq_refl eq_refl) as (c & Hactive & _).
  discriminate Hactive.
Qed.

(** C2, amended. A generation that succeeds with a non-empty artifact
    constructs a new Creation, makes it the active artifact and puts it at
    the front of the history; so does every image generation that
    succeeds. *)
Theorem successful_generation_is_active_and_first :
  (forall w promptText file b sc b1 html b2,
      scanFile w file (begin_generate b) = (Fulfilled sc, b1) ->
      bringToLife w promptText (imageBase64 sc) (scan_mimeType sc)
        (detectionContext (detections sc)) b1 = (Fulfilled html, b2) ->
      truthy html = true ->
      let c := newCreation w promptText file sc html in
      let b' := exec (handleGenerate w promptText file) b in
      activeCreation b' = Some c /\ history b' = c :: history b)
  /\ (forall w prompt b imageDataUrl b1,
      generateFluxImage w prompt (begin_generateImage b) = (Fulfilled imageDataUrl, b1) ->
      let c := newImageCreation w prompt imageDataUrl in
      let b' := exec (handleGenerateImage w prompt) b in
      activeCreation b' = Some c /\ history b' = c :: history b).
Proof.
  split.
  - intros w p file b sc b1 html b2 Hscan Hgen Hhtml. cbv zeta. unfold exec.
    rewrite handleGenerate_run, Hscan, Hgen, Hhtml. cbn [snd created activeCreation history].
    split; [ reflexivity | ]. f_equal.
    pose proof (Quiet_scanFile w file (begin_generate b)) as Q1.
    pose proof (Quiet_bringToLife w p (imageBase64 sc) (scan_mimeType sc)
                  (detectionContext (detections sc)) b1) as Q2.
    rewrite Hscan in Q1. rewrite Hgen in Q2. cbn [snd] in Q1, Q2.
    rewrite (quiet_history Q2), (quiet_history Q1). reflexivity.
  - intros w p b u b1 Hgen. cbv zeta. unfold exec.
    rewrite handleGenerateImage_run, Hgen. cbn [snd created activeCreation history].
    split; [ reflexivity | ]. f_equal.
    pose proof (Quiet_generateFluxImage w p (begin_generateImage b)) as Q.
    rewrite Hgen in Q. cbn [snd] in Q. rewrite (quiet_history Q). reflexivity.
Qed.

Lemma successful_generation_is_active_and_first_witness :
  (let c := newCreation (Scenario.answers "<p>hi</p>") "a login form" None
              (mkScan None None []) "<p>hi</p>" in
   let b' := exec (handleGenerate (Scenario.answers "<p>hi</p>") "a login form" None)
                  Scenario.browser0 in
   activeCreation b' = Some c /\ history b' = [c])
  /\ (let c := newImageCreation Scenario.submit_fails "a red kite"
                 "data:image/png;base64,iVBORw0KGgo=" in
      let b' := exec (handleGenerateImage Scenario.submit_fails "a red kite")
                     Scenario.browser0 in
      activeCreation b' = Some c /\ history b' = [c]).
Proof.
  destruct successful_generation_is_active_and_first as (H1 & H2).
  split.
  - exact (H1 (Scenario.answers "<p>hi</p>") "a login form" None Scenario.browser0
              (mkScan None None []) _ "<p>hi</p>" _ eq_refl eq_refl eq_refl).
  - exact (H2 Scenario.submit_fails "a red kite" Scenario.browser0
              "data:image/png;base64,iVBORw0KGgo=" _ eq_refl).
Defined.

(** ** Return to idle (C9) *)

(** Every run of [handleGenerate] clears the generation flag, except the
    one in which the artifact comes back empty. *)
Lemma handleGenerate_clears_unless_empty w promptText file b :
  isGenerating (exec (handleGenerate w promptText file) b) = false
  \/ exists sc b1 b2,
       scanFile w file (begin_generate b) = (Fulfilled sc, b1)
       /\ bringToLife w promptText (imageBase64 sc) (scan_mimeType sc)
            (detectionContext (detections sc)) b1 = (Fulfilled EmptyString, b2).
Proof.
  unfold exec. rewrite handleGenerate_run.
  destruct (scanFile w file (begin_generate b)) as [[sc | e] b1] eqn:Hs.
  - destruct (bringToLife _ _ _ _ _ b1) as [[html | e] b2] eqn:Hg.
    + destruct html as [| c html].
      * right. now exists sc, b1, b2.
      * left. reflexivity.
    + left. apply handleError_clears.
  - left. apply handleError_clears.
Qed.

(** Every run of [handleGenerateImage] clears the generation flag. *)
Lemma handleGenerateImage_clears w prompt b :
  isGenerating (exec (handleGenerateImage w prompt) b) = false.
Proof.
  unfold exec. rewrite handleGenerateImage_run.
  destruct (generateFluxImage _ _ _) as [[u | e] b1].
  - reflexivity.
  - apply handleError_clears.
Qed.

(** C9, at the failing input.  The model answers with a bare code fence;
    [bringToLife] strips it and returns the empty string; [handleGenerate]
    returns without an error and the generation flag is still set. *)
Theorem empty_artifact_leaves_generating :
  let w := Scenario.answers Scenario.fence in
  result (bringToLife w "a login form" None None None) (begin_generate Scenario.browser0)
    = Fulfilled EmptyString
  /\ result (handleGenerate w "a login form" None) Scenario.browser0 = Fulfilled tt
  /\ isGenerating (exec (handleGenerate w "a login form" None) Scenario.browser0) = true
  /\ alerts (exec (handleGenerate w "a login form" None) Scenario.browser0) = [].
Proof. repeat split. Qed.

(** ** Fallback of the image path (C1) *)

(** When the job submission fails, the fallback runs and its outcome is
    the caller's. *)
Lemma submission_failure_falls_back w prompt e b :
  submission w prompt = Rejected e ->
  result (generateFluxImage w prompt) b =
  result (generateAIImage w prompt)
         (log [ConsoleError "FLUX Generation Error, falling back to Gemini:"]
              (log [CallFetch prompt] b)).
Proof. intros H. unfold result. now rewrite generateFluxImage_run, H. Qed.

(** Once the job is submitted, the caller gets whatever the stream's
    promise settles to, and the hosted model is never asked. *)
Lemma after_submission_no_fallback w prompt event_id b :
  submission w prompt = Fulfilled event_id ->
  result (generateFluxImage w prompt) b
    = sse_settles (eventSource w (FLUX_API_BASE ++ "/" ++ event_id))
  /\ model_calls (exec (generateFluxImage w prompt) b) = model_calls b.
Proof.
  intros H. unfold result, exec. rewrite generateFluxImage_run, H. split.
  - reflexivity.
  - unfold model_calls; simpl. rewrite !filter_app; simpl. now rewrite !app_nil_r.
Qed.

(** C1, at the failing inputs.  The job is accepted; then the stream
    errors, or nothing completes the job before the 60 s timer.  The
    caller receives the stream's rejection, and [generateAIImage], which
    would have produced an image, is not invoked. *)
Theorem stream_failure_reaches_the_caller :
  result (generateFluxImage Scenario.stream_fails "a red kite") Scenario.browser0
    = Rejected Scenario.stream_error
  /\ model_calls (exec (generateFluxImage Scenario.stream_fails "a red kite")
                       Scenario.browser0) = []
  /\ result (generateFluxImage Scenario.stream_times_out "a red kite") Scenario.browser0
     = Rejected (Error "FLUX generation timed out")
  /\ model_calls (exec (generateFluxImage Scenario.stream_times_out "a red kite")
                       Scenario.browser0) = []
  /\ result (generateAIImage Scenario.stream_fails "a red kite") Scenario.browser0
     = Fulfilled "data:image/png;base64,iVBORw0KGgo="
  /\ alerts (exec (handleGenerateImage Scenario.stream_fails "a red kite")
                  Scenario.browser0)
     = [Alert "An unexpected error occurred. Please try again or check your connection."].
Proof. repeat split. Qed.

(** ** Code fences (C8) *)

(** C8, at the failing inputs.  A fenced answer that ends in a line break
    keeps its closing fence, and an answer whose opening fence follows a
    blank keeps its opening fence. *)
Theorem fences_next_to_white_space_survive :
  strip_fences Scenario.fenced_answer = "<p>hi</p>" ++ LF ++ Scenario.fence
  /\ endsWith (strip_fences Scenario.fenced_answer) Scenario.fence = true
  /\ startsWith (strip_fences Scenario.indented_answer) Scenario.fence = true
  /\ result (bringToLife (Scenario.answers Scenario.fenced_answer) "a login form"
                         None None None) Scenario.browser0
     = Fulfilled ("<p>hi</p>" ++ LF ++ Scenario.fence).
Proof. repeat split. Qed.

(** A fenced answer with nothing around the fences comes back bare, and
    an answer without fences comes back trimmed. *)
Lemma fences_at_the_ends_are_stripped :
  strip_fences (Scenario.fence ++ "html" ++ LF ++ "<p>hi</p>" ++ LF ++ Scenario.fence)
  = "<p>hi</p>"
  /\ strip_fences (Scenario.fence ++ "HTML <p>hi</p>" ++ Scenario.fence) = "<p>hi</p>"
  /\ strip_fences (Scenario.fence ++ LF ++ "<p>hi</p>" ++ Scenario.fence) = "<p>hi</p>"
  /\ strip_fences (" <p>hi</p>" ++ LF) = "<p>hi</p>".
Proof. repeat split. Qed.

(** ** Persisted history (C6) *)

Section Persistence.
Context {codec : DateCodec} {laws : DateCodecLaws codec}.

Lemma new_Date_toJSON_valid d : valid_Date d -> new_Date (Date_toJSON d) = d.
Proof.
  intros (t & -> & Ht). simpl. now apply Date_parse_toISOString.
Qed.

(** An Invalid Date is written as [null], and [new Date(null)] is the epoch. *)
Lemma new_Date_toJSON_invalid : new_Date (Date_toJSON None) = Some 0%Z.
Proof. reflexivity. Qed.

Lemma rehydrate_stringify h :
  rehydrate (JSON_stringify_history h) = map through_storage h.
Proof.
  unfold rehydrate, JSON_stringify_history. rewrite map_map. reflexivity.
Qed.

Lemma through_storage_valid c : valid_Date (timestamp c) -> through_storage c = c.
Proof.
  intros H. unfold through_storage. rewrite (new_Date_toJSON_valid _ H).
  now destruct c.
Qed.

(** What [initHistory] loads when storage holds a non-empty document. *)
Lemma initHistory_stored examples doc b :
  localStorage b = Stored doc -> doc <> [] ->
  history (exec (initHistory examples) b) = rehydrate doc.
Proof.
  intros Hs Hne. unfold exec, initHistory, bind at 1, getItem. rewrite Hs.
  unfold ret, bind at 1.
  destruct doc as [| item doc]; [ contradiction | ]. reflexivity.
Qed.

(** What the persist effect writes for a non-empty history. *)
Lemma persistEffect_stores b :
  history b <> [] ->
  localStorage (exec (persistEffect false) b) = Stored (JSON_stringify_history (history b)).
Proof.
  intros Hne. unfold exec, persistEffect, bind, getHistory.
  destruct (history b); [ contradiction | reflexivity ].
Qed.

(** A history written by the persist effect and loaded by [initHistory]. *)
Lemma reload_history b fresh examples :
  history b <> [] ->
  localStorage fresh = localStorage (exec (persistEffect false) b) ->
  history (exec (initHistory examples) fresh) = map through_storage (history b).
Proof.
  intros Hne Hs. rewrite (persistEffect_stores _ Hne) in Hs.
  rewrite (initHistory_stored _ _ _ Hs), rehydrate_stringify; [ reflexivity | ].
  unfold JSON_stringify_history. destruct (history b); [ contradiction | discriminate ].
Qed.

(** C6, amended. A non-empty history that is written to storage and loaded
    again comes back with the same length and order; every record keeps
    its identifier, and every record whose timestamp is a valid date keeps
    its timestamp. *)
Theorem persisted_history_reloads b fresh examples :
  history b <> [] ->
  localStorage fresh = localStorage (exec (persistEffect false) b) ->
  let reloaded := history (exec (initHistory examples) fresh) in
  length reloaded = length (history b)
  /\ ids reloaded = ids (history b)
  /\ forall i c,
       nth_error (history b) i = Some c ->
       exists c',
         nth_error reloaded i = Some c'
         /\ id c' = id c
         /\ (valid_Date (timestamp c) -> timestamp c' = timestamp c).
Proof.
  intros Hne Hs. cbv zeta. rewrite (reload_history _ _ _ Hne Hs).
  split; [ apply length_map | ]. split.
  - unfold ids. rewrite map_map. reflexivity.
  - intros i c Hi. exists (through_storage c). split; [ | split ].
    + now apply map_nth_error.
    + reflexivity.
    + intros Hv. now rewrite (through_storage_valid _ Hv).
Qed.

End Persistence.

Lemma persisted_history_reloads_witness :
  let c1 := Scenario.a_creation "c1" (Some 1700000000000%Z) in
  let c2 := Scenario.a_creation "c2" None in
  let b := mkBrowser None false [c1; c2] (Some true) [] NoItem [] in
  let fresh := mkBrowser None false [] None [] (localStorage (exec (persistEffect false) b)) [] in
  let reloaded := history (exec (initHistory []) fresh) in
  length reloaded = 2%nat
  /\ ids reloaded = ["c1"; "c2"]
  /\ exists c',
       nth_error reloaded 0 = Some c' /\ id c' = "c1"
       /\ timestamp c' = Some 1700000000000%Z.
Proof.
  intros c1 c2 b fresh reloaded.
  destruct (persisted_history_reloads (codec := iso_codec) b fresh []
              ltac:(discriminate) eq_refl) as (Hlen & Hid & Hnth).
  split; [ exact Hlen | ]. split; [ exact Hid | ].
  destruct (Hnth 0%nat c1 eq_refl) as (c' & H0 & Hi & Ht).
  exists c'. split; [ exact H0 | ]. split; [ exact Hi | ].
  apply Ht. exists 1700000000000%Z. split; [ reflexivity | ].
  unfold valid_time, maxTime. simpl. lia.
Defined.

(** C6, as stated, fails: a record whose timestamp is an Invalid Date is
    written with a [null] timestamp and loads with the epoch as its
    timestamp. *)
Lemma invalid_date_reloads_as_epoch :
  ~ (forall b fresh examples,
        history b <> [] ->
        localStorage fresh = localStorage (exec (persistEffect false) b) ->
        timestamps (history (exec (initHistory examples) fresh))
        = timestamps (history b)).
Proof.
  intros H.
  set (b := mkBrowser None false [Scenario.a_creation "c1" None] (Some true) [] NoItem []).
  set (fresh := mkBrowser None false [] None [] (localStorage (exec (persistEffect false) b)) []).
  specialize (H b fresh [] ltac:(discriminate) eq_refl).
  discriminate H.
Qed.

(** An Invalid Date gets into the history through the import handler:
    a file whose timestamp is not a date-time string. *)
Lemma unreadable_timestamp_imports_as_invalid_date :
  let parsed := mkCreation (Some "c1") "demo" "<p>hi</p>" None (TsString "yesterday") None in
  timestamps
    (history (exec (importOnload (Scenario.answers "x") (Some parsed)) Scenario.browser0))
  = [None].
Proof. reflexivity. Qed.

(** ** Import and export (C7) *)

Lemma existsb_id_In (i : string) (h : list Creation) :
  existsb (fun c => String.eqb (id c) i) h = true <-> In i (ids h).
Proof.
  rewrite existsb_exists. unfold ids. rewrite in_map_iff. split.
  - intros (c & Hc & He). apply String.eqb_eq in He. now exists c.
  - intros (c & He & Hc). exists c. split; [ assumption | now apply String.eqb_eq ].
Qed.

Section ImportExport.
Context {codec : DateCodec} {laws : DateCodecLaws codec}.

Lemma importOnload_history w parsed b :
  history (exec (importOnload w (Some parsed)) b) =
  let imported := normalise parsed (Date_now w) (crypto_randomUUID w) in
  if existsb (fun c => String.eqb (id c) (id imported)) (history b)
  then history b else imported :: history b.
Proof. reflexivity. Qed.

(** An exported record, imported, is the record again. *)
Lemma import_of_export c now uuid :
  valid_Date (timestamp c) -> id c <> EmptyString ->
  normalise (read_back (Creation_toJSON c)) now uuid = c.
Proof.
  intros (t & Ht & Hv) Hid. destruct c as [i n h o ts ids]. simpl in *. subst ts.
  unfold normalise, read_back, Creation_toJSON, with_timestamp_id, with_timestamp. simpl.
  rewrite (toISOString_truthy Hv). simpl.
  rewrite (Date_parse_toISOString Hv).
  f_equal. unfold or_else. destruct i; [ contradiction | reflexivity ].
Qed.

(** C7. An imported file whose identifier already occurs in the history
    leaves the history unchanged; otherwise the imported record is put at
    the front.  The file's own identifier is used when it has one.  Export
    writes the whole record as a JSON document, and importing that
    document gives the record back, its timestamp re-hydrated, when the
    record has a valid timestamp and a non-empty identifier.  (A record
    the import handler builds from a file whose timestamp is not a
    date-time string has an Invalid Date, which export writes as [null].) *)
Theorem import_adds_no_duplicate :
  (forall w parsed b,
      let imported := normalise parsed (Date_now w) (crypto_randomUUID w) in
      let b' := exec (importOnload w (Some parsed)) b in
      (In (id imported) (ids (history b)) -> history b' = history b)
      /\ (~ In (id imported) (ids (history b)) -> history b' = imported :: history b)
      /\ activeCreation b' = Some imported
      /\ (forall i, id parsed = Some i -> i <> EmptyString -> id imported = i))
  /\ (forall c b,
      exists filename,
        effects (exec (handleExport (Some c)) b)
        = (effects b ++ [Download filename (Creation_toJSON c)])%list)
  /\ (forall c now uuid,
      valid_Date (timestamp c) -> id c <> EmptyString ->
      normalise (read_back (Creation_toJSON c)) now uuid = c).
Proof.
  split; [ | split ].
  - intros w parsed b. cbv zeta. rewrite importOnload_history. cbv zeta.
    repeat split.
    + intros Hin. apply existsb_id_In in Hin. now rewrite Hin.
    + intros Hnot.
      match goal with |- context [existsb ?f ?l] => destruct (existsb f l) eqn:E end;
        [ | reflexivity ].
      apply existsb_id_In in E. contradiction.
    + intros i Hi Hne. unfold normalise. simpl. rewrite Hi. simpl.
      unfold or_else. destruct i; [ contradiction | reflexivity ].
  - intros c b. eexists. reflexivity.
  - exact import_of_export.
Qed.

End ImportExport.

Lemma import_adds_no_duplicate_witness :
  let c := Scenario.a_creation "c1" (Some 1700000000000%Z) in
  let b := mkBrowser None false [c] (Some true) [] NoItem [] in
  let w := Scenario.answers "x" in
  history (exec (importOnload w (Some (read_back (Creation_toJSON c)))) b) = [c]
  /\ history (exec (importOnload w (Some (read_back (Creation_toJSON c)))) Scenario.browser0)
     = [c]
  /\ normalise (read_back (Creation_toJSON c)) 0%Z "other" = c.
Proof.
  intros c b w.
  destruct (import_adds_no_duplicate (codec := iso_codec)) as (Himport & _ & Hround).
  assert (Hc : normalise (read_back (Creation_toJSON c)) (Date_now w) (crypto_randomUUID w) = c).
  { apply Hround; [ | discriminate ].
    exists 1700000000000%Z. split; [ reflexivity | ]. unfold valid_time, maxTime. simpl. lia. }
  split; [ | split ].
  - destruct (Himport w (read_back (Creation_toJSON c)) b) as (Hdup & _).
    rewrite Hdup; [ reflexivity | ]. rewrite Hc. left. reflexivity.
  - destruct (Himport w (read_back (Creation_toJSON c)) Scenario.browser0) as (_ & Hnew & _).
    rewrite Hnew; [ now rewrite Hc | ]. intros [].
  - apply Hround; [ | discriminate ].
    exists 1700000000000%Z. split; [ reflexivity | ]. unfold valid_time, maxTime. simpl. lia.
Defined.

(** C7, as stated, fails for a record the application itself builds.  The
    import handler makes a record with an Invalid Date from a file whose
    timestamp is not a date-time string; export writes that timestamp as
    [null]; importing the exported document gives a record whose timestamp
    is the time of the import. *)
Lemma exported_invalid_date_imports_as_now :
  ~ (forall w parsed b c,
        activeCreation (exec (importOnload w (Some parsed)) b) = Some c ->
        forall w' b',
          activeCreation
            (exec (importOnload w' (Some (read_back (Creation_toJSON c)))) b')
          = Some c).
Proof.
  intros H.
  set (parsed := mkCreation (Some "c1") "demo" "<p>hi</p>" None (TsString "yesterday") None).
  specialize (H (Scenario.answers "x") parsed Scenario.browser0 _ eq_refl
                (Scenario.answers "x") Scenario.browser0).
  discriminate H.
Qed.

(** ** Submitting the input (C10) *)

(** C10. On submit, exactly when the trimmed combination of the committed
    text and the interim transcript is not empty or a file is attached,
    and no generation is in flight and the component is not disabled, the
    generation callback is invoked and the text, the interim transcript,
    the final-transcript buffer and the attached file are cleared; in every
    other case nothing is invoked and the state is unchanged. *)
Theorem handleSubmit_fires_or_does_nothing props st :
  let ready :=
    (InputArea.combinedText st <> EmptyString \/ InputArea.file st <> None)
    /\ InputArea.isGenerating props = false
    /\ InputArea.disabled props = false in
  (ready ->
   InputArea.handleSubmit props st
   = (InputArea.mkState EmptyString EmptyString None
        (InputArea.isRecording st) (InputArea.isMenuOpen st) EmptyString,
      [InputArea.onGenerate (InputArea.combinedText st) (InputArea.file st)]))
  /\ (~ ready -> InputArea.handleSubmit props st = (st, [])).
Proof.
  cbv zeta. unfold InputArea.handleSubmit.
  destruct (InputArea.combinedText st) as [| ch rest] eqn:Ec;
    destruct (InputArea.file st) as [f |] eqn:Ef;
    destruct (InputArea.isGenerating props) eqn:Eg;
    destruct (InputArea.disabled props) eqn:Ed;
    simpl; split; intros H; try reflexivity;
    try (exfalso; destruct H as (H1 & H2 & H3); first [ discriminate | destruct H1 as [H1 | H1]; now apply H1 ]);
    try (exfalso; apply H; repeat split; first [ left; discriminate | right; discriminate ]).
Qed.

Lemma handleSubmit_fires_or_does_nothing_witness :
  InputArea.handleSubmit (InputArea.mkProps false false)
    (InputArea.mkState " a login" "form " None true false " a login")
  = (InputArea.mkState EmptyString EmptyString None true false EmptyString,
     [InputArea.onGenerate "a login form" None])
  /\ InputArea.handleSubmit (InputArea.mkProps true false)
       (InputArea.mkState " a login" "form " None true false " a login")
     = (InputArea.mkState " a login" "form " None true false " a login", []).
Proof.
  split.
  - apply (proj1 (handleSubmit_fires_or_does_nothing (InputArea.mkProps false false)
                    (InputArea.mkState " a login" "form " None true false " a login"))).
    split; [ left; discriminate | split; reflexivity ].
  - apply (proj2 (handleSubmit_fires_or_does_nothing (InputArea.mkProps true false)
                    (InputArea.mkState " a login" "form " None true false " a login"))).
    intros (_ & H & _). discriminate H.
Defined.

(** ** The submit button *)

Lemma has_ink_app a b : has_ink (a ++ b) = has_ink a || has_ink b.
Proof.
  induction a as [| c a IH]; simpl; [ reflexivity | ].
  now rewrite IH, orb_assoc.
Qed.

Lemma truthy_trimEnd s : truthy (trimEnd s) = has_ink s.
Proof.
  induction s as [| c s IH]; simpl; [ reflexivity | ].
  rewrite <- IH.
  destruct (trimEnd s); simpl; destruct (isWhiteSpace c); reflexivity.
Qed.

Lemma has_ink_trimStart s : has_ink (trimStart s) = has_ink s.
Proof.
  induction s as [| c s IH]; simpl; [ reflexivity | ].
  destruct (isWhiteSpace c) eqn:E; simpl; [ assumption | now rewrite E ].
Qed.

(** A string trims to a non-empty string when it has a character that is
    not white space. *)
Lemma truthy_trim s : truthy (trim s) = has_ink s.
Proof. unfold trim. now rewrite truthy_trimEnd, has_ink_trimStart. Qed.

Lemma truthy_combinedText st :
  truthy (InputArea.combinedText st)
  = truthy (trim (InputArea.text st)) || truthy (trim (InputArea.interimText st)).
Proof.
  unfold InputArea.combinedText. rewrite !truthy_trim, has_ink_app.
  destruct (InputArea.interimText st) as [| c s]; simpl; [ reflexivity | ].
  reflexivity.
Qed.

(** X25. The submit button is enabled exactly when a submit would
    invoke the generation callback. *)
Lemma submit_enabled_iff_fires props st :
  InputArea.submit_disabled props st = false
  <-> snd (InputArea.handleSubmit props st)
      = [InputArea.onGenerate (InputArea.combinedText st) (InputArea.file st)].
Proof.
  unfold InputArea.submit_disabled, InputArea.handleSubmit.
  rewrite truthy_combinedText.
  destruct (truthy (trim (InputArea.text st)));
    destruct (truthy (trim (InputArea.interimText st)));
    destruct (InputArea.file st);
    destruct (InputArea.isGenerating props);
    destruct (InputArea.disabled props); simpl; split; intros H;
    first [ reflexivity | discriminate ].
Qed.


(** ** The service layer, further *)

Lemma generateAIImage_run w prompt b :
  generateAIImage w prompt b =
  let req := image_request prompt in
  let failed e :=
    (Rejected (reclassify e),
     log [ConsoleError "Gemini Image Generation Error:"] (log [CallGenerateContent req] b)) in
  match ai_generateContent w req with
  | Rejected e => failed e
  | Fulfilled response =>
      match first_image response with
      | Some d =>
          (Fulfilled ("data:image/png;base64," ++ interpolate (data d)),
           log [CallGenerateContent req] b)
      | None => failed (Error "No image data returned from Gemini Pro Image")
      end
  end.
Proof.
  unfold generateAIImage, try_catch, bind at 1. rewrite generateContent_run.
  cbv zeta. unfold first_image.
  destruct (ai_generateContent w _) as [resp | e].
  - destruct (candidates resp) as [| c cs]; [ reflexivity | ].
    destruct (content_parts c) as [ps |]; [ | reflexivity ].
    destruct (first_inlineData ps); reflexivity.
  - unfold reclassify, bind. rewrite perform_log.
    destruct (isQuotaOrAuthError e); reflexivity.
Qed.

(** X1. A quota or authorization error never leaves the service layer as
    it came: whatever [identifyImage], [bringToLife] or [generateAIImage]
    rejects with is not classified as one (it is the key-reset error, or an
    error the classifier does not match); and [identifyImage] rejects with
    nothing but the key-reset error. *)
Theorem services_reclassify_quota_errors w :
  (forall fileBase64 mimeType b e,
      result (identifyImage w fileBase64 mimeType) b = Rejected e ->
      e = Error KEY_RESET_REQUIRED)
  /\ (forall prompt fileBase64 mimeType ctx b e,
      result (bringToLife w prompt fileBase64 mimeType ctx) b = Rejected e ->
      isQuotaOrAuthError e = false)
  /\ (forall prompt b e,
      result (generateAIImage w prompt) b = Rejected e ->
      isQuotaOrAuthError e = false).
Proof.
  assert (R : forall e, isQuotaOrAuthError (reclassify e) = false).
  { intros e. unfold reclassify. destruct (isQuotaOrAuthError e) eqn:E; [ reflexivity | exact E ]. }
  split; [ | split ].
  - intros x m b e. unfold result. rewrite identifyImage_run. cbv zeta.
    unfold soft_failure.
    destruct (ai_generateContent w _) as [resp | e0].
    + destruct (JSON_parse_identifications w _) as [l | e1]; [ discriminate | ].
      destruct (isQuotaOrAuthError e1); simpl; [ now intros [= <-] | discriminate ].
    + destruct (isQuotaOrAuthError e0); simpl; [ now intros [= <-] | discriminate ].
  - intros p x m c b e. unfold result. rewrite bringToLife_run. cbv zeta.
    destruct (ai_generateContent w _) as [resp | e0]; simpl; [ discriminate | ].
    intros [= <-]. apply R.
  - intros p b e. unfold result. rewrite generateAIImage_run. cbv zeta.
    destruct (ai_generateContent w _) as [resp | e0]; simpl.
    + destruct (first_image resp); simpl; [ discriminate | ]. now intros [= <-].
    + intros [= <-]. apply R.
Qed.

Lemma services_reclassify_quota_errors_witness :
  result (identifyImage Scenario.over_quota (Some "iVBORw0KGgo=") "image/png")
         Scenario.browser0 = Rejected (Error KEY_RESET_REQUIRED)
  /\ isQuotaOrAuthError (Error KEY_RESET_REQUIRED) = false.
Proof.
  destruct (services_reclassify_quota_errors Scenario.over_quota) as (H1 & _ & H3).
  split.
  - reflexivity.
  - exact (H3 "a red kite" Scenario.browser0 (Error KEY_RESET_REQUIRED) eq_refl).
Defined.

(** ** The event stream *)

Lemma sse_settles_pending pre rest :
  forallb pending pre = true -> sse_settles (pre ++ rest) = sse_settles rest.
Proof.
  induction pre as [| ev pre IH]; simpl; [ reflexivity | ].
  intros H. apply andb_true_iff in H. destruct H as [Hev Hpre].
  destruct ev as [[d |] | err]; simpl in Hev; try discriminate; auto.
  unfold onmessage. apply negb_true_iff in Hev. rewrite Hev. auto.
Qed.

Lemma sse_settles_truthy events u :
  sse_settles events = Fulfilled u -> truthy u = true.
Proof.
  revert u. induction events as [| ev events IH]; simpl; [ discriminate | ].
  intros u. destruct ev as [[d |] | err]; [ | apply IH | discriminate ].
  destruct (onmessage d) as [r |] eqn:E; [ | apply IH ].
  intros ->. unfold onmessage in E.
  destruct (String.eqb (msg d) "process_completed"); [ | discriminate ].
  injection E as E.
  destruct (if success d then output0 d else None) as [[s | url] |]; simpl in E;
    try discriminate.
  - destruct (truthy s) eqn:T; [ now injection E as <- | discriminate ].
  - destruct url as [s |]; simpl in E; [ | discriminate ].
    destruct (truthy s) eqn:T; [ now injection E as <- | discriminate ].
Qed.

(** X2. The promise around the event source settles with the first event
    that is a stream error or a [process_completed] message; what comes
    before it and after it does not matter.  When no such event comes, the
    promise is rejected by the 60 s timer.  When it is fulfilled, it is
    fulfilled with a non-empty string. *)
Theorem stream_settles_with_first_decisive_event :
  (forall pre ev post,
      forallb pending pre = true -> pending ev = false ->
      sse_settles (pre ++ ev :: post) = sse_settles [ev])
  /\ (forall events,
      forallb pending events = true ->
      sse_settles events = Rejected (Error "FLUX generation timed out"))
  /\ (forall events u, sse_settles events = Fulfilled u -> truthy u = true).
Proof.
  split; [ | split ].
  - intros pre ev post Hpre Hev. rewrite (sse_settles_pending pre _ Hpre).
    destruct ev as [[d |] | err]; simpl in *; try discriminate; [ | reflexivity ].
    destruct (onmessage d) eqn:E; [ reflexivity | ].
    unfold onmessage in E. apply negb_false_iff in Hev. rewrite Hev in E. discriminate.
  - intros events H. rewrite <- (app_nil_r events).
    now rewrite (sse_settles_pending events [] H).
  - exact sse_settles_truthy.
Qed.

Lemma stream_settles_with_first_decisive_event_witness :
  sse_settles [Scenario.heartbeat; SseMessage None;
               SseMessage (Some (mkSseData "process_completed" true
                                   (Some (OutObject (Some "https://host/tmp/kite.webp")))));
               SseError Scenario.stream_error]
  = Fulfilled "https://host/tmp/kite.webp"
  /\ sse_settles [Scenario.heartbeat; Scenario.heartbeat]
     = Rejected (Error "FLUX generation timed out")
  /\ truthy "https://host/tmp/kite.webp" = true.
Proof.
  destruct stream_settles_with_first_decisive_event as (H1 & H2 & H3).
  split; [ | split ].
  - exact (H1 [Scenario.heartbeat; SseMessage None]
              (SseMessage (Some (mkSseData "process_completed" true
                                   (Some (OutObject (Some "https://host/tmp/kite.webp"))))))
              [SseError Scenario.stream_error] eq_refl eq_refl).
  - exact (H2 [Scenario.heartbeat; Scenario.heartbeat] eq_refl).
  - exact (H3 [SseMessage (Some (mkSseData "process_completed" true
                                   (Some (OutObject (Some "https://host/tmp/kite.webp")))))]
              _ eq_refl).
Defined.

(** What [generateFluxImage] fulfils with is never the empty string: a
    non-empty result of the stream, or a data URL from the fallback. *)
Lemma generateFluxImage_fulfils_truthy w prompt b u :
  result (generateFluxImage w prompt) b = Fulfilled u -> truthy u = true.
Proof.
  unfold result. rewrite generateFluxImage_run.
  destruct (submission w prompt) as [event_id | e].
  - unfold sse_promise, bind, settle. rewrite !perform_log. cbn [fst].
    apply sse_settles_truthy.
  - rewrite generateAIImage_run. cbv zeta.
    destruct (ai_generateContent w _) as [resp | e0]; [ | discriminate ].
    destruct (first_image resp); [ | discriminate ].
    cbn [fst]. now intros [= <-].
Qed.


(** ** What the generation handlers leave behind *)

Lemma handleError_frame e b :
  let b' := snd (handleError e b) in
  activeCreation b' = activeCreation b
  /\ history b' = history b
  /\ localStorage b' = localStorage b
  /\ isGenerating b' = false
  /\ (hasApiKey b' = hasApiKey b \/ hasApiKey b' = Some false).
Proof.
  unfold handleError. destruct (String.eqb _ _); cbn; repeat split; auto.
Qed.

(** The cases of a run of [handleGenerate], by how its [try] block ends. *)
Lemma handleGenerate_cases w promptText file b :
  let b' := exec (handleGenerate w promptText file) b in
  (* an error was handled *)
  (activeCreation b' = None /\ isGenerating b' = false /\ history b' = history b
   /\ localStorage b' = localStorage b
   /\ (hasApiKey b' = hasApiKey b \/ hasApiKey b' = Some false))
  (* the artifact came back empty *)
  \/ (activeCreation b' = None /\ isGenerating b' = true /\ history b' = history b
      /\ localStorage b' = localStorage b /\ hasApiKey b' = hasApiKey b)
  (* a Creation was made *)
  \/ (exists sc html,
        result (scanFile w file) (begin_generate b) = Fulfilled sc
        /\ truthy html = true
        /\ activeCreation b' = Some (newCreation w promptText file sc html)
        /\ history b' = newCreation w promptText file sc html :: history b
        /\ isGenerating b' = false
        /\ localStorage b' = localStorage b /\ hasApiKey b' = hasApiKey b).
Proof.
  cbv zeta. unfold exec. rewrite handleGenerate_run.
  pose proof (Quiet_scanFile w file (begin_generate b)) as Q1. unfold result.
  destruct (scanFile w file (begin_generate b)) as [[sc | e] b1]; cbn [snd fst] in *.
  - pose proof (Quiet_bringToLife w promptText (imageBase64 sc) (scan_mimeType sc)
                  (detectionContext (detections sc)) b1) as Q2.
    destruct (bringToLife _ _ _ _ _ b1) as [[html | e] b2]; cbn [snd] in Q2.
    + pose proof (quiet_trans _ _ _ Q1 Q2) as [Qa Qg Qh Qk Ql _]. simpl in *.
      destruct (truthy html) eqn:T.
      * right; right. exists sc, html. cbn. rewrite Qh, Ql, Qk. repeat split; assumption.
      * right; left. cbn. rewrite Qa, Qg, Qh, Ql, Qk. repeat split.
    + left. pose proof (quiet_trans _ _ _ Q1 Q2) as [Qa Qg Qh Qk Ql _]. simpl in *.
      destruct (handleError_frame e b2) as (Ha & Hh & Hl & Hg & Hk).
      rewrite Ha, Hh, Hl, Hg, Qa, Qh, Ql. repeat split.
      destruct Hk as [Hk | Hk]; rewrite Hk; [ left; exact Qk | now right ].
  - left. destruct Q1 as [Qa Qg Qh Qk Ql _]. simpl in *.
    destruct (handleError_frame e b1) as (Ha & Hh & Hl & Hg & Hk).
    rewrite Ha, Hh, Hl, Hg, Qa, Qh, Ql. repeat split.
    destruct Hk as [Hk | Hk]; rewrite Hk; [ left; exact Qk | now right ].
Qed.

Lemma handleGenerateImage_cases w prompt b :
  let b' := exec (handleGenerateImage w prompt) b in
  (activeCreation b' = None /\ isGenerating b' = false /\ history b' = history b
   /\ localStorage b' = localStorage b
   /\ (hasApiKey b' = hasApiKey b \/ hasApiKey b' = Some false))
  \/ (exists imageDataUrl,
        truthy imageDataUrl = true
        /\ activeCreation b' = Some (newImageCreation w prompt imageDataUrl)
        /\ history b' = newImageCreation w prompt imageDataUrl :: history b
        /\ isGenerating b' = false
        /\ localStorage b' = localStorage b /\ hasApiKey b' = hasApiKey b).
Proof.
  cbv zeta. unfold exec. rewrite handleGenerateImage_run.
  pose proof (Quiet_generateFluxImage w prompt (begin_generateImage b)) as Q.
  pose proof (generateFluxImage_fulfils_truthy w prompt (begin_generateImage b)) as T.
  unfold result in T.
  destruct (generateFluxImage w prompt (begin_generateImage b)) as [[u | e] b1];
    cbn [snd fst] in *; destruct Q as [Qa Qg Qh Qk Ql _]; simpl in *.
  - right. exists u. cbn. rewrite Qh, Ql, Qk. repeat split. now apply T.
  - left. destruct (handleError_frame e b1) as (Ha & Hh & Hl & Hg & Hk).
    rewrite Ha, Hh, Hl, Hg, Qa, Qh, Ql. repeat split.
    destruct Hk as [Hk | Hk]; rewrite Hk; [ left; exact Qk | now right ].
Qed.


(** X3. A run of a generation handler or of the import handler leaves the
    history as it was or puts one record in front of it, which is then the
    active artifact; it never writes local storage, and it never sets
    [hasApiKey] to anything but [false]. *)
Theorem handlers_only_prepend {codec : DateCodec} w :
  let grows (b b' : Browser) :=
    (history b' = history b
     \/ exists c, history b' = c :: history b /\ activeCreation b' = Some c)
    /\ localStorage b' = localStorage b
    /\ (hasApiKey b' = hasApiKey b \/ hasApiKey b' = Some false) in
  (forall promptText file b, grows b (exec (handleGenerate w promptText file) b))
  /\ (forall prompt b, grows b (exec (handleGenerateImage w prompt) b))
  /\ (forall parsed b, grows b (exec (importOnload w parsed) b)).
Proof.
  cbv zeta. split; [ | split ].
  - intros p file b.
    destruct (handleGenerate_cases w p file b)
      as [(Ha & Hg & Hh & Hl & Hk) | [(Ha & Hg & Hh & Hl & Hk) | (sc & html & Hsc & T & Ha & Hh & Hg & Hl & Hk)]].
    + repeat split; auto.
    + repeat split; auto.
    + split; [ right; eexists; split; eassumption | split; auto ].
  - intros p b.
    destruct (handleGenerateImage_cases w p b)
      as [(Ha & Hg & Hh & Hl & Hk) | (u & T & Ha & Hh & Hg & Hl & Hk)].
    + repeat split; auto.
    + split; [ right; eexists; split; eassumption | split; auto ].
  - intros [parsed |] b; cbn.
    + split; [ | split; auto ].
      match goal with |- context [existsb ?f ?l] => destruct (existsb f l) end.
      * now left.
      * right. eexists. split; reflexivity.
    + repeat split; auto.
Qed.

(** X4. Every Creation a generation handler makes has the fresh UUID as
    its identifier, the current time as its timestamp and a non-empty
    artifact; its identification list is absent or non-empty, never an
    empty list; an image Creation has a non-empty original image and no
    identification list. *)
Theorem generated_records_are_well_formed w :
  (forall promptText file b c,
      activeCreation (exec (handleGenerate w promptText file) b) = Some c ->
      id c = crypto_randomUUID w
      /\ timestamp c = Some (Date_now w)
      /\ truthy (html c) = true
      /\ identifications c <> Some []
      /\ (file = None -> originalImage c = None /\ identifications c = None))
  /\ (forall prompt b c,
      activeCreation (exec (handleGenerateImage w prompt) b) = Some c ->
      id c = crypto_randomUUID w
      /\ timestamp c = Some (Date_now w)
      /\ truthy (html c) = true
      /\ opt_truthy (originalImage c) = true
      /\ identifications c = None).
Proof.
  split.
  - intros p file b c Hc.
    destruct (handleGenerate_cases w p file b)
      as [(Ha & _) | [(Ha & _) | (sc & html & Hsc & T & Ha & _)]];
      rewrite Ha in Hc; try discriminate.
    injection Hc as <-. cbn.
    split; [ reflexivity | ]. split; [ reflexivity | ]. split; [ exact T | ]. split.
    + destruct (detections sc); cbn; discriminate.
    + intros ->. injection Hsc as <-. split; reflexivity.
  - intros p b c Hc.
    destruct (handleGenerateImage_cases w p b) as [(Ha & _) | (u & T & Ha & _)];
      rewrite Ha in Hc; try discriminate.
    injection Hc as <-. cbn. repeat split; auto.
Qed.


Lemma generated_records_are_well_formed_witness :
  exists c,
    activeCreation (exec (handleGenerate Scenario.scan_offline "a login form"
                            (Some Scenario.a_png)) Scenario.browser0) = Some c
    /\ id c = "3b241101-e2bb-4255-8caf-4136c566a962"
    /\ timestamp c = Some 1700000000000%Z
    /\ truthy (html c) = true
    /\ identifications c <> Some [].
Proof.
  eexists. split; [ reflexivity | ].
  destruct (proj1 (generated_records_are_well_formed Scenario.scan_offline)
              "a login form" (Some Scenario.a_png) Scenario.browser0 _ eq_refl)
    as (H1 & H2 & H3 & H4 & _).
  exact (conj H1 (conj H2 (conj H3 H4))).
Defined.

(** X5. After a run of a generation handler the preview is never focused
    on nothing: either the application is back on its home view, or the
    preview shows the new artifact in its frame (for an image Creation with
    the split view on), or, for [handleGenerate] only, it still shows the
    loading steps. *)
Theorem preview_after_generation w :
  (forall promptText file b,
      let b' := exec (handleGenerate w promptText file) b in
      isFocused b' = false
      \/ LivePreview.body_of b' = LivePreview.Loading
      \/ exists c, activeCreation b' = Some c
                   /\ LivePreview.body_of b' = LivePreview.Frame (html c))
  /\ (forall prompt b,
      let b' := exec (handleGenerateImage w prompt) b in
      isFocused b' = false
      \/ exists c, activeCreation b' = Some c
                   /\ LivePreview.body_of b' = LivePreview.Frame (html c)
                   /\ LivePreview.showSplitView_default (activeCreation b') = true).
Proof.
  split.
  - intros p file b b'. subst b'.
    destruct (handleGenerate_cases w p file b)
      as [(Ha & Hg & _) | [(Ha & Hg & _) | (sc & html & _ & T & Ha & _ & Hg & _)]].
    + left. unfold isFocused. now rewrite Ha, Hg.
    + right; left. unfold LivePreview.body_of, LivePreview.body. now rewrite Hg.
    + right; right. eexists. split; [ exact Ha | ].
      unfold LivePreview.body_of, LivePreview.body. rewrite Hg, Ha. cbn. now rewrite T.
  - intros p b b'. subst b'.
    destruct (handleGenerateImage_cases w p b)
      as [(Ha & Hg & _) | (u & T & Ha & _ & Hg & _)].
    + left. unfold isFocused. now rewrite Ha, Hg.
    + right. eexists. split; [ exact Ha | ].
      unfold LivePreview.body_of, LivePreview.body. rewrite Hg, Ha. cbn. now rewrite T.
Qed.

(** ** Identifiers *)

(** X6. The import handler keeps the identifiers of the history distinct,
    whatever the file holds; the generation handlers keep them distinct
    when the UUID they draw is not in the history yet. *)
Theorem identifiers_stay_distinct {codec : DateCodec} w :
  (forall parsed b,
      NoDup (ids (history b)) ->
      NoDup (ids (history (exec (importOnload w parsed) b))))
  /\ (forall promptText file b,
      NoDup (ids (history b)) ->
      ~ In (crypto_randomUUID w) (ids (history b)) ->
      NoDup (ids (history (exec (handleGenerate w promptText file) b))))
  /\ (forall prompt b,
      NoDup (ids (history b)) ->
      ~ In (crypto_randomUUID w) (ids (history b)) ->
      NoDup (ids (history (exec (handleGenerateImage w prompt) b)))).
Proof.
  split; [ | split ].
  - intros [parsed |] b Hnd; [ | exact Hnd ].
    cbn.
    match goal with |- context [existsb ?f ?l] => destruct (existsb f l) eqn:E end.
    + exact Hnd.
    + cbn. constructor; [ | exact Hnd ].
      intros Hin. apply existsb_id_In in Hin. congruence.
  - intros p file b Hnd Hfresh.
    destruct (handleGenerate_cases w p file b)
      as [(_ & _ & Hh & _) | [(_ & _ & Hh & _) | (sc & html & _ & _ & _ & Hh & _)]];
      rewrite Hh; try exact Hnd.
    cbn. now constructor.
  - intros p b Hnd Hfresh.
    destruct (handleGenerateImage_cases w p b) as [(_ & _ & Hh & _) | (u & _ & _ & Hh & _)];
      rewrite Hh; try exact Hnd.
    cbn. now constructor.
Qed.

Lemma identifiers_stay_distinct_witness :
  let c := Scenario.a_creation "c1" (Some 1700000000000%Z) in
  let b := mkBrowser None false [c] (Some true) [] NoItem [] in
  NoDup (ids (history (exec (importOnload (Scenario.answers "x")
                               (Some (mkCreation (Some "c1") "again" "<p>hi</p>" None
                                        TsAbsent None))) b)))
  /\ NoDup (ids (history (exec (handleGenerate (Scenario.answers "<p>hi</p>")
                                  "a login form" None) b))).
Proof.
  intros c b.
  destruct (identifiers_stay_distinct (Scenario.answers "x")) as (H1 & _).
  destruct (identifiers_stay_distinct (Scenario.answers "<p>hi</p>")) as (_ & H2 & _).
  assert (Hnd : NoDup (ids (history b))).
  { cbn. constructor; [ intros [] | constructor ]. }
  split.
  - apply H1. exact Hnd.
  - apply H2; [ exact Hnd | ]. cbn. intros [H | []]. discriminate H.
Defined.


(** ** Attached files *)

Lemma until_comma_no_comma s : no_comma s = true -> until_comma s = s.
Proof.
  induction s as [| c s IH]; simpl; [ reflexivity | ].
  intros H. apply andb_true_iff in H. destruct H as [Hc Hs].
  apply negb_true_iff in Hc. rewrite Hc. now rewrite IH.
Qed.

(** The payload of a data URL is what [fileToBase64] takes out of it. *)
Lemma split_comma_1_data_url mediaType payload :
  no_comma mediaType = true -> no_comma payload = true ->
  split_comma_1 ("data:" ++ mediaType ++ ";base64," ++ payload) = Some payload.
Proof.
  intros Hm Hp. unfold split_comma_1. cbn.
  match goal with
  | |- context [after_comma ?x] => assert (H : after_comma x = Some payload)
  end.
  { induction mediaType as [| c m IH]; [ reflexivity | ].
    cbn in *. apply andb_true_iff in Hm. destruct Hm as [Hc Hm].
    apply negb_true_iff in Hc. rewrite Hc. auto. }
  rewrite H. cbn. now rewrite until_comma_no_comma.
Qed.

(** What a fulfilled scan holds. *)
Lemma scanFile_fulfilled w f b sc :
  result (scanFile w (Some f)) b = Fulfilled sc ->
  exists url,
    readAsDataURL f = Fulfilled url
    /\ imageBase64 sc = split_comma_1 url
    /\ scan_mimeType sc = Some (toLowerCase (file_type f)).
Proof.
  unfold result, scanFile, fileToBase64, bind at 1 2, settle.
  destruct (readAsDataURL f) as [url | e]; [ | discriminate ].
  unfold ret at 1. unfold bind at 1. rewrite identifyImage_run. cbv zeta.
  intros H. exists url. split; [ reflexivity | ].
  destruct (ai_generateContent w _) as [resp | e].
  - destruct (JSON_parse_identifications w _) as [l | e]; cbn in H.
    + injection H as <-. split; reflexivity.
    + unfold soft_failure in H. destruct (isQuotaOrAuthError e); cbn in H;
        [ discriminate | injection H as <-; split; reflexivity ].
  - unfold soft_failure in H. destruct (isQuotaOrAuthError e); cbn in H;
      [ discriminate | injection H as <-; split; reflexivity ].
Qed.

(** X7. A Creation [handleGenerate] makes from an attached file is named
    after the file.  Its original image is the data URL the file reader
    produced when that URL is [data:<type>;base64,<payload>], where
    [<type>] is the file's MIME type in lower case, type and payload are
    both non-empty and neither holds a comma.  For a file whose MIME type
    is empty the Creation has no original image, whatever was read. *)
Theorem original_image_is_the_data_url w promptText f b c :
  activeCreation (exec (handleGenerate w promptText (Some f)) b) = Some c ->
  name c = file_name f
  /\ (forall mediaType payload,
      readAsDataURL f = Fulfilled ("data:" ++ mediaType ++ ";base64," ++ payload) ->
      toLowerCase (file_type f) = mediaType ->
      no_comma mediaType = true -> truthy mediaType = true ->
      no_comma payload = true -> truthy payload = true ->
      originalImage c = Some ("data:" ++ mediaType ++ ";base64," ++ payload))
  /\ (file_type f = EmptyString -> originalImage c = None).
Proof.
  intros Hc.
  destruct (handleGenerate_cases w promptText (Some f) b)
    as [(Ha & _) | [(Ha & _) | (sc & html & Hsc & _ & Ha & _)]];
    rewrite Ha in Hc; try discriminate.
  injection Hc as <-.
  destruct (scanFile_fulfilled w f _ sc Hsc) as (url & Hr & Hi & Hmi).
  split; [ reflexivity | split ].
  - intros mediaType payload Hurl Hty Hm Htm Hp Htp.
    rewrite Hurl in Hr. injection Hr as Hr. subst url.
    assert (Hi' : imageBase64 sc = Some payload).
    { rewrite Hi. exact (split_comma_1_data_url _ _ Hm Hp). }
    rewrite Hty in Hmi.
    cbn. rewrite Hi', Hmi. cbn. rewrite Htp, Htm. reflexivity.
  - intros Hty. rewrite Hty in Hmi. cbn. rewrite Hmi. cbn.
    now rewrite andb_false_r.
Qed.

Lemma original_image_is_the_data_url_witness :
  (exists c,
      activeCreation (exec (handleGenerate Scenario.scan_offline "a login form"
                              (Some Scenario.a_png)) Scenario.browser0) = Some c
      /\ originalImage c = Some "data:image/png;base64,iVBORw0KGgo="
      /\ name c = "sketch.png")
  /\ (exists c,
      activeCreation (exec (handleGenerate Scenario.scan_offline "a login form"
                              (Some Scenario.untyped_file)) Scenario.browser0) = Some c
      /\ originalImage c = None).
Proof.
  split.
  - eexists. split; [ reflexivity | ].
    destruct (original_image_is_the_data_url Scenario.scan_offline "a login form"
                Scenario.a_png Scenario.browser0 _ eq_refl) as (Hn & Hurl & _).
    split; [ | exact Hn ].
    exact (Hurl "image/png" "iVBORw0KGgo=" eq_refl eq_refl eq_refl eq_refl eq_refl eq_refl).
  - eexists. split; [ reflexivity | ].
    destruct (original_image_is_the_data_url Scenario.scan_offline "a login form"
                Scenario.untyped_file Scenario.browser0 _ eq_refl) as (_ & _ & Hnone).
    exact (Hnone eq_refl).
Defined.


Lemma startsWith_before_foreign_char needle : forall m c rest,
  mentions c needle = false ->
  startsWith (m ++ String c rest) needle = startsWith m needle.
Proof.
  induction needle as [| a n IH]; intros m c rest H; [ reflexivity | ].
  cbn in H. apply orb_false_iff in H. destruct H as [Hac Hn].
  destruct m as [| b m']; cbn.
  - now rewrite Hac.
  - now rewrite (IH m' c rest Hn).
Qed.

(** X8. The split view draws the original of a Creation made from an
    attached file with the PDF renderer exactly when the file's MIME type,
    in lower case, starts with [application/pdf]; otherwise as an image. *)
Theorem original_view_follows_the_file_type w promptText f b c img :
  activeCreation (exec (handleGenerate w promptText (Some f)) b) = Some c ->
  originalImage c = Some img ->
  LivePreview.originalView img
  = if startsWith (toLowerCase (file_type f)) "application/pdf"
    then LivePreview.PdfRenderer else LivePreview.Img.
Proof.
  intros Hc Himg.
  destruct (handleGenerate_cases w promptText (Some f) b)
    as [(Ha & _) | [(Ha & _) | (sc & html & Hsc & _ & Ha & _)]];
    rewrite Ha in Hc; try discriminate.
  injection Hc as <-.
  destruct (scanFile_fulfilled w f _ sc Hsc) as (url & _ & _ & Hmi).
  cbn in Himg. rewrite Hmi in Himg.
  destruct (opt_truthy (imageBase64 sc) && _); [ | discriminate ].
  injection Himg as <-. unfold LivePreview.originalView.
  replace (startsWith _ "data:application/pdf")
    with (startsWith (toLowerCase (file_type f)) "application/pdf"); [ reflexivity | ].
  symmetry.
  exact (startsWith_before_foreign_char "application/pdf" (toLowerCase (file_type f))
           ";"%char ("base64," ++ interpolate (imageBase64 sc)) eq_refl).
Qed.

Lemma original_view_follows_the_file_type_witness :
  LivePreview.originalView "data:image/png;base64,iVBORw0KGgo=" = LivePreview.Img.
Proof.
  exact (original_view_follows_the_file_type Scenario.scan_offline "a login form"
           Scenario.a_png Scenario.browser0 _ _ eq_refl eq_refl).
Defined.




(** ** Names *)

Lemma slice0_prefix n : forall s, exists rest, s = slice0 n s ++ rest.
Proof.
  unfold slice0. induction n as [| n IH]; intros s.
  - exists s. now destruct s.
  - destruct s as [| c s]; [ now exists EmptyString | ].
    destruct (IH s) as (rest & H). exists rest. cbn. now rewrite <- H.
Qed.

Lemma slice0_length n : forall s, String.length (slice0 n s) = Nat.min n (String.length s).
Proof.
  unfold slice0. induction n as [| n IH]; intros s.
  - now destruct s.
  - destruct s as [| c s]; [ reflexivity | ]. cbn. now rewrite IH.
Qed.

Lemma length_append a b : String.length (a ++ b) = (String.length a + String.length b)%nat.
Proof. induction a as [| c a IH]; cbn; [ reflexivity | now rewrite IH ]. Qed.

(** X10. A Creation made from text alone is named by the first thirty
    characters of the prompt: its name is not empty, has at most thirty
    characters and, for a non-empty prompt, is a prefix of it.  An image
    Creation is named [FLUX: ], at most twenty characters of the prompt,
    and three dots. *)
Theorem creations_are_named_after_the_prompt w :
  (forall promptText b c,
      activeCreation (exec (handleGenerate w promptText None) b) = Some c ->
      name c <> EmptyString
      /\ (String.length (name c) <= 30)%nat
      /\ (truthy promptText = true -> exists rest, promptText = name c ++ rest))
  /\ (forall prompt b c,
      activeCreation (exec (handleGenerateImage w prompt) b) = Some c ->
      (exists rest, prompt = slice0 20 prompt ++ rest)
      /\ name c = "FLUX: " ++ slice0 20 prompt ++ "..."
      /\ (String.length (name c) <= 29)%nat).
Proof.
  split.
  - intros p b c Hc.
    destruct (handleGenerate_cases w p None b)
      as [(Ha & _) | [(Ha & _) | (sc & html & _ & _ & Ha & _)]];
      rewrite Ha in Hc; try discriminate.
    injection Hc as <-. cbn.
    destruct p as [| ch p]; cbn.
    + split; [ discriminate | ]. split; [ lia | discriminate ].
    + split; [ discriminate | ]. split.
      * change (String ch (substring 0 29 p)) with (String ch (slice0 29 p)).
        cbn. rewrite slice0_length. lia.
      * intros _. destruct (slice0_prefix 29 p) as (rest & H). exists rest.
        cbn. unfold slice0 in H. now rewrite <- H.
  - intros p b c Hc.
    destruct (handleGenerateImage_cases w p b) as [(Ha & _) | (u & _ & Ha & _)];
      rewrite Ha in Hc; try discriminate.
    injection Hc as <-. cbn [name newImageCreation].
    split; [ apply slice0_prefix | ]. split; [ reflexivity | ].
    rewrite !length_append, slice0_length.
    change (String.length "FLUX: ") with 6%nat. change (String.length "...") with 3%nat. lia.
Qed.

Lemma creations_are_named_after_the_prompt_witness :
  exists c,
    activeCreation (exec (handleGenerate (Scenario.answers "<p>hi</p>")
                            "a login form with a very long description" None)
                         Scenario.browser0) = Some c
    /\ name c = "a login form with a very long "
    /\ (String.length (name c) <= 30)%nat.
Proof.
  eexists. split; [ reflexivity | ]. split; [ reflexivity | ].
  exact (proj1 (proj2 (proj1 (creations_are_named_after_the_prompt
                                (Scenario.answers "<p>hi</p>"))
                         "a login form with a very long description"
                         Scenario.browser0 _ eq_refl))).
Defined.

Lemma filename_char c :
  is_filename_char (toLowerChar (if isAlnum c then c else "_"%char)) = true.
Proof. destruct c as [[] [] [] [] [] [] [] []]; reflexivity. Qed.

Lemma all_chars_app p a b : all_chars p (a ++ b) = all_chars p a && all_chars p b.
Proof. induction a as [| c a IH]; cbn; [ reflexivity | now rewrite IH, andb_assoc ]. Qed.

(** X11. Export downloads one file.  Its name is the Creation's name with
    every character that is not a letter or a digit replaced by an
    underscore and letters in lower case, followed by [_artifact.json]: the
    stem is as long as the name and holds only lower-case letters, digits
    and underscores.  With no active Creation nothing is downloaded. *)
Theorem export_file_name_is_safe {codec : DateCodec} :
  (forall c b,
      exists stem,
        effects (exec (handleExport (Some c)) b)
        = (effects b ++ [Download (stem ++ "_artifact.json") (Creation_toJSON c)])%list
        /\ String.length stem = String.length (name c)
        /\ all_chars is_filename_char stem = true)
  /\ (forall b, exec (handleExport None) b = b).
Proof.
  split; [ | reflexivity ].
  intros c b. exists (toLowerCase (replace_non_alnum (name c))).
  split; [ reflexivity | ].
  induction (name c) as [| ch s [IHl IHc]]; cbn; [ split; reflexivity | ].
  split; [ now rewrite IHl | ]. now rewrite filename_char, IHc.
Qed.


(** ** Loading the history, further *)

Section Loading.
Context {codec : DateCodec}.

Lemma load_examples_spec fs :
  if existsb rejects fs
  then exists e, load_examples fs = Rejected e
  else exists l, load_examples fs = Fulfilled l /\ validExamples l = example_records fs.
Proof.
  induction fs as [| f fs IH]; cbn; [ now exists [] | ].
  destruct f as [e | | e | data now uuid]; cbn.
  - now exists e.
  - destruct (existsb rejects fs).
    + destruct IH as (e & ->). now exists e.
    + destruct IH as (l & -> & Hl). eexists. split; [ reflexivity | exact Hl ].
  - now exists e.
  - destruct (existsb rejects fs).
    + destruct IH as (e & ->). now exists e.
    + destruct IH as (l & -> & Hl). eexists. split; [ reflexivity | ].
      cbn. now rewrite Hl.
Qed.

(** X12. When storage holds no usable history (no item, an unreadable
    text, or an empty array), the examples are loaded all or nothing: if
    the fetch or the body of any example URL rejects, the history stays as
    it was; otherwise it becomes the records of the URLs that answered ok,
    in the order of the URLs, a URL that answered not-ok being skipped.
    When storage holds a non-empty history, the examples play no part. *)
Theorem examples_load_all_or_nothing examples b :
  (localStorage b = NoItem \/ localStorage b = Unreadable \/ localStorage b = Stored [] ->
   history (exec (initHistory examples) b)
   = if existsb rejects examples then history b else example_records examples)
  /\ (forall doc, localStorage b = Stored doc -> doc <> [] ->
      history (exec (initHistory examples) b) = rehydrate doc).
Proof.
  split.
  - intros Hs. unfold exec, initHistory, bind at 1, getItem. cbn [fst snd].
    pose proof (load_examples_spec examples) as L.
    assert (E : forall b0,
               history (snd (try_catch
                               (loaded <- settle (load_examples examples) ;;
                                setHistory (fun _ => validExamples loaded))
                               (fun _ => perform (ConsoleError "Failed to load examples")) b0))
               = if existsb rejects examples then history b0 else example_records examples).
    { intros b0. unfold try_catch, bind, settle.
      destruct (existsb rejects examples).
      - destruct L as (e & ->). reflexivity.
      - destruct L as (l & -> & Hl). cbn. exact Hl. }
    destruct Hs as [-> | [-> | ->]].
    + exact (E b).
    + exact (E (log [ConsoleError "Failed to load history"] b)).
    + exact (E b).
  - intros doc Hs Hne. now apply initHistory_stored.
Qed.

(** X13. A record made from a JSON file, by import or from an example URL,
    always has an identifier: the file's own when that is a non-empty
    string, the fresh UUID otherwise.  A file without a timestamp (none,
    [null], the empty string or 0) gets the current time. *)
Theorem imported_records_are_identified data now uuid :
  truthy uuid = true ->
  let c := normalise data now uuid in
  truthy (id c) = true
  /\ (forall i, id data = Some i -> truthy i = true -> id c = i)
  /\ (opt_truthy (id data) = false -> id c = uuid)
  /\ (falsy_timestamp (timestamp data) = true -> timestamp c = TimeClip now).
Proof.
  intros Hu. cbn. unfold opt_or_else, or_else.
  repeat split.
  - destruct (id data) as [i |]; [ | exact Hu ].
    destruct (truthy i) eqn:T; [ exact T | exact Hu ].
  - intros i -> ->. reflexivity.
  - destruct (id data) as [i |]; cbn; [ | reflexivity ]. now intros ->.
  - destruct (timestamp data) as [| | s | n]; cbn; try reflexivity.
    + intros H. apply negb_true_iff in H. now rewrite H.
    + intros ->. reflexivity.
Qed.

End Loading.

Lemma examples_load_all_or_nothing_witness :
  let answered := ExampleJson (mkCreation (Some "chess") "Chess" "<p>hi</p>" None
                                 (TsNumber 1700000000000) None) 0 "fresh" in
  let kept := [mkCreation "c1" "Old" "<p>old</p>" None (TsNumber 1700000000000) None] in
  history (exec (initHistory [answered; NotOk; answered]) Scenario.browser0)
  = example_records [answered; answered]
  /\ history (exec (initHistory [answered; FetchRejected Scenario.network_error])
                   Scenario.browser0) = []
  /\ history (exec (initHistory [answered])
                   (mkBrowser None false [] None [] (Stored kept) []))
     = rehydrate kept.
Proof.
  intros answered kept. split; [ | split ].
  - exact (proj1 (examples_load_all_or_nothing [answered; NotOk; answered]
                    Scenario.browser0) (or_introl eq_refl)).
  - exact (proj1 (examples_load_all_or_nothing
                    [answered; FetchRejected Scenario.network_error]
                    Scenario.browser0) (or_introl eq_refl)).
  - apply (proj2 (examples_load_all_or_nothing [answered]
                    (mkBrowser None false [] None [] (Stored kept) [])) kept);
      [ reflexivity | discriminate ].
Defined.

Lemma imported_records_are_identified_witness :
  let c := normalise (mkCreation (Some EmptyString) "demo" "<p>hi</p>" None TsNull None)
             1700000000000 "fresh" in
  id c = "fresh" /\ timestamp c = Some 1700000000000%Z.
Proof.
  destruct (imported_records_are_identified
              (mkCreation (Some EmptyString) "demo" "<p>hi</p>" None TsNull None)
              1700000000000 "fresh" eq_refl) as (_ & _ & Hid & Hts).
  split; [ exact (Hid eq_refl) | exact (Hts eq_refl) ].
Defined.

(** X14. Start-up rewrites what it read: when a non-empty history whose
    timestamps are all valid dates has been written to storage, loading it
    with [initHistory] and letting the persist effect run again stores the
    same document. *)
Theorem persisting_a_reloaded_history_changes_nothing
    {codec : DateCodec} {laws : DateCodecLaws codec} b fresh examples :
  history b <> [] ->
  Forall (fun c : Creation => valid_Date (timestamp c)) (history b) ->
  localStorage fresh = localStorage (exec (persistEffect false) b) ->
  let reloaded := exec (initHistory examples) fresh in
  history reloaded = history b
  /\ localStorage (exec (persistEffect false) reloaded)
     = localStorage (exec (persistEffect false) b).
Proof.
  intros Hne Hv Hs.
  assert (Hh : history (exec (initHistory examples) fresh) = history b).
  { rewrite (reload_history b fresh examples Hne Hs).
    induction Hv as [| c h Hc Hh IH]; cbn; [ reflexivity | ].
    rewrite (through_storage_valid c Hc). f_equal.
    destruct h; [ reflexivity | apply IH; discriminate ]. }
  cbv zeta. split; [ exact Hh | ].
  rewrite !persistEffect_stores by (rewrite ?Hh; exact Hne).
  now rewrite Hh.
Qed.

Lemma persisting_a_reloaded_history_changes_nothing_witness :
  let b := mkBrowser None false [Scenario.a_creation "c1" (Some 1700000000000%Z)]
             (Some true) [] NoItem [] in
  let fresh := mkBrowser None false [] None [] (localStorage (exec (persistEffect false) b)) [] in
  history (exec (initHistory []) fresh) = history b
  /\ localStorage (exec (persistEffect false) (exec (initHistory []) fresh))
     = localStorage (exec (persistEffect false) b).
Proof.
  intros b fresh.
  apply (persisting_a_reloaded_history_changes_nothing b fresh []);
    [ discriminate | | reflexivity ].
  repeat constructor. exists 1700000000000%Z. split; [ reflexivity | ].
  unfold valid_time, maxTime. simpl. lia.
Defined.


(** ** The input component, further *)

Lemma onresult_loop_keeps_sync : forall segments interim final st,
  InputArea.finalTranscriptRef st = InputArea.text st ->
  InputArea.finalTranscriptRef (InputEvents.onresult_loop segments interim final st)
  = InputArea.text (InputEvents.onresult_loop segments interim final st).
Proof.
  induction segments as [| seg rest IH]; intros interim final st H; cbn; [ exact H | ].
  destruct (InputEvents.isFinal seg); apply IH; cbn; [ reflexivity | exact H ].
Qed.

Lemma step_keeps_sync supported st pe :
  InputArea.finalTranscriptRef st = InputArea.text st ->
  InputArea.finalTranscriptRef (InputEvents.step supported st pe)
  = InputArea.text (InputEvents.step supported st pe).
Proof.
  intros H. destruct pe as [props ev]. destruct ev; cbn; try exact H; try reflexivity.
  - now apply onresult_loop_keeps_sync.
  - unfold InputEvents.toggleRecording. destruct (InputArea.isRecording st); cbn;
      [ exact H | reflexivity ].
  - unfold InputEvents.handleFileChange. destruct files; cbn; exact H.
  - unfold InputArea.handleSubmit. destruct (_ && _); cbn; [ reflexivity | exact H ].
  - unfold InputEvents.handleAIImageClick. destruct (_ && _); cbn; [ reflexivity | exact H ].
  - unfold InputEvents.handleKeyDown, InputArea.handleSubmit.
    destruct (String.eqb key "Enter" && negb shiftKey); [ | exact H ].
    destruct (_ && _); cbn; [ reflexivity | exact H ].
Qed.

(** X15. Whatever happens to the input component (typing, dictation
    results, recognizer errors, toggling, attaching, submitting, keys), the
    final-transcript buffer holds the committed text. *)
Theorem transcript_buffer_follows_the_text supported events :
  let st := InputEvents.run supported events in
  InputArea.finalTranscriptRef st = InputArea.text st.
Proof.
  cbv zeta. unfold InputEvents.run.
  assert (G : forall st, InputArea.finalTranscriptRef st = InputArea.text st ->
                         InputArea.finalTranscriptRef (fold_left (InputEvents.step supported) events st)
                         = InputArea.text (fold_left (InputEvents.step supported) events st)).
  { induction events as [| pe events IH]; intros st H; cbn; [ exact H | ].
    apply IH. now apply step_keeps_sync. }
  apply G. reflexivity.
Qed.

Lemma onresult_loop_text : forall segments interim final st,
  InputArea.text (InputEvents.onresult_loop segments interim final st)
  = if existsb InputEvents.isFinal segments
    then fold_left InputEvents.append_final (finals segments) final
    else InputArea.text st.
Proof.
  induction segments as [| seg rest IH]; intros interim final st; cbn; [ reflexivity | ].
  unfold finals. cbn. destruct (InputEvents.isFinal seg); cbn; rewrite IH; cbn.
  - destruct (existsb InputEvents.isFinal rest) eqn:E; [ reflexivity | ].
    replace (filter InputEvents.isFinal rest) with (@nil InputEvents.Segment);
      [ reflexivity | ].
    symmetry. clear -E. induction rest as [| s r IHr]; [ reflexivity | ].
    cbn in *. apply orb_false_iff in E. destruct E as [-> E]. auto.
  - reflexivity.
Qed.

Lemma onresult_loop_frame : forall segments interim final st,
  let st' := InputEvents.onresult_loop segments interim final st in
  InputArea.file st' = InputArea.file st
  /\ InputArea.isRecording st' = InputArea.isRecording st
  /\ InputArea.isMenuOpen st' = InputArea.isMenuOpen st.
Proof.
  induction segments as [| seg rest IH]; intros interim final st; cbn; [ auto | ].
  destruct (InputEvents.isFinal seg);
    match goal with |- context [InputEvents.onresult_loop rest ?i ?f ?s] =>
      destruct (IH i f s) as (H1 & H2 & H3) end; cbn in *; auto.
Qed.

Lemma append_assoc_string a b c : (a ++ b) ++ c = a ++ (b ++ c).
Proof. induction a as [| ch a IH]; cbn; [ reflexivity | now rewrite IH ]. Qed.

Lemma fold_append_final_extends ts : forall final,
  exists rest, fold_left InputEvents.append_final ts final = final ++ rest.
Proof.
  induction ts as [| t ts IH]; intros final; cbn.
  - exists EmptyString. induction final; cbn; congruence.
  - destruct (IH (InputEvents.append_final final t)) as (rest & ->).
    unfold InputEvents.append_final.
    eexists. rewrite !append_assoc_string. reflexivity.
Qed.

(** X16. A dictation result changes the committed text only through its
    final segments: in a state where the buffer holds the text (every
    reachable state), the new text is the old text with the final
    transcripts appended in order, each after a single blank unless the
    text before it is empty or ends in a blank; the old text is a prefix of
    the new one.  A result without a final segment leaves the text alone.
    The attached file, the recording flag and the menu are not touched. *)
Theorem dictation_appends_final_segments segments st :
  InputArea.finalTranscriptRef st = InputArea.text st ->
  let st' := InputEvents.onresult segments st in
  InputArea.text st' = fold_left InputEvents.append_final (finals segments) (InputArea.text st)
  /\ (exists rest, InputArea.text st' = InputArea.text st ++ rest)
  /\ (existsb InputEvents.isFinal segments = false -> InputArea.text st' = InputArea.text st)
  /\ InputArea.file st' = InputArea.file st
  /\ InputArea.isRecording st' = InputArea.isRecording st
  /\ InputArea.isMenuOpen st' = InputArea.isMenuOpen st.
Proof.
  intros Hsync. cbv zeta. unfold InputEvents.onresult.
  assert (Ht : InputArea.text (InputEvents.onresult_loop segments EmptyString
                                 (InputArea.finalTranscriptRef st) st)
               = fold_left InputEvents.append_final (finals segments) (InputArea.text st)).
  { rewrite onresult_loop_text, Hsync.
    destruct (existsb InputEvents.isFinal segments) eqn:E; [ reflexivity | ].
    unfold finals. replace (filter InputEvents.isFinal segments) with (@nil InputEvents.Segment);
      [ reflexivity | ].
    symmetry. clear -E. induction segments as [| s r IHr]; [ reflexivity | ].
    cbn in *. apply orb_false_iff in E. destruct E as [-> E]. auto. }
  split; [ exact Ht | ]. split.
  - rewrite Ht. apply fold_append_final_extends.
  - split.
    + intros E. rewrite onresult_loop_text, E. reflexivity.
    + apply onresult_loop_frame.
Qed.

Lemma dictation_appends_final_segments_witness :
  let st := InputArea.mkState "a login" EmptyString None true false "a login" in
  InputArea.text
    (InputEvents.onresult [InputEvents.mkSegment "form" true;
                           InputEvents.mkSegment " with" false;
                           InputEvents.mkSegment "two fields" true] st)
  = "a login form two fields".
Proof.
  intros st.
  exact (proj1 (dictation_appends_final_segments
                  [InputEvents.mkSegment "form" true;
                   InputEvents.mkSegment " with" false;
                   InputEvents.mkSegment "two fields" true] st eq_refl)).
Defined.


(** X17. The "Generate AI Image" entry invokes the image callback exactly
    when the trimmed combination of text and interim transcript is not
    empty and no generation is in flight, whether or not the component is
    disabled; it then clears the text, the interim transcript and the
    buffer, closes the menu and keeps the attached file.  In every other
    case it only shows the alert and changes nothing. *)
Theorem handleAIImageClick_fires_or_alerts props st :
  let ready :=
    InputArea.combinedText st <> EmptyString /\ InputArea.isGenerating props = false in
  (ready ->
   InputEvents.handleAIImageClick props st
   = (InputArea.mkState EmptyString EmptyString (InputArea.file st)
        (InputArea.isRecording st) false EmptyString,
      InputEvents.mkOutput [InputArea.onGenerateImage (InputArea.combinedText st)] [] []))
  /\ (~ ready ->
      fst (InputEvents.handleAIImageClick props st) = st
      /\ InputEvents.callbacks (snd (InputEvents.handleAIImageClick props st)) = []
      /\ length (InputEvents.alerted (snd (InputEvents.handleAIImageClick props st))) = 1%nat).
Proof.
  cbv zeta. unfold InputEvents.handleAIImageClick.
  destruct (InputArea.combinedText st) as [| ch rest];
    destruct (InputArea.isGenerating props); cbn; split; intros H;
    try reflexivity; try (repeat split; reflexivity);
    try (exfalso; destruct H as (H1 & H2); first [ discriminate | now apply H1 ]).
  exfalso. apply H. split; [ discriminate | reflexivity ].
Qed.

Lemma handleAIImageClick_fires_or_alerts_witness :
  InputEvents.handleAIImageClick (InputArea.mkProps false true)
    (InputArea.mkState "a red kite " EmptyString (Some Scenario.a_png) false true "a red kite ")
  = (InputArea.mkState EmptyString EmptyString (Some Scenario.a_png) false false EmptyString,
     InputEvents.mkOutput [InputArea.onGenerateImage "a red kite"] [] [])
  /\ fst (InputEvents.handleAIImageClick (InputArea.mkProps true false)
            (InputArea.mkState "a red kite " EmptyString None false true "a red kite "))
     = InputArea.mkState "a red kite " EmptyString None false true "a red kite ".
Proof.
  split.
  - apply (proj1 (handleAIImageClick_fires_or_alerts (InputArea.mkProps false true)
                    (InputArea.mkState "a red kite " EmptyString (Some Scenario.a_png)
                       false true "a red kite "))).
    split; [ discriminate | reflexivity ].
  - apply (proj2 (handleAIImageClick_fires_or_alerts (InputArea.mkProps true false)
                    (InputArea.mkState "a red kite " EmptyString None false true
                       "a red kite "))).
    intros (_ & H). discriminate H.
Defined.




(** ** The preview's loading steps *)

Lemma loadingStep_after_S n :
  LivePreview.loadingStep_after (S n) = LivePreview.tick (LivePreview.loadingStep_after n).
Proof. reflexivity. Qed.

(** X19. The loading indicator advances one step per tick and stops at the
    fourth step: after [n] ticks it shows step [min n 3].  At every moment
    exactly one of the four steps is active, the steps before it are
    completed, and the fourth step, "Artifact Compilation", is never shown
    as completed. *)
Theorem loading_steps_stop_at_the_fourth n :
  let s := LivePreview.loadingStep_after n in
  s = Nat.min n 3
  /\ length (filter LivePreview.active (LivePreview.loadingSteps s)) = 1%nat
  /\ length (filter LivePreview.completed (LivePreview.loadingSteps s)) = s
  /\ forall st, In st (LivePreview.loadingSteps s) ->
                LivePreview.step_text st = "Artifact Compilation" ->
                LivePreview.completed st = false.
Proof.
  cbv zeta.
  assert (H : LivePreview.loadingStep_after n = Nat.min n 3).
  { induction n as [| n IH]; [ reflexivity | ].
    rewrite loadingStep_after_S, IH. unfold LivePreview.tick.
    destruct (Nat.ltb_spec (Nat.min n 3) 3); lia. }
  rewrite H.
  assert (C : (Nat.min n 3 = 0 \/ Nat.min n 3 = 1 \/ Nat.min n 3 = 2 \/ Nat.min n 3 = 3)%nat)
    by lia.
  repeat split.
  - destruct C as [-> | [-> | [-> | ->]]]; reflexivity.
  - destruct C as [-> | [-> | [-> | ->]]]; reflexivity.
  - intros st Hin Htxt.
    destruct C as [C | [C | [C | C]]]; rewrite C in Hin; cbn in Hin;
      destruct Hin as [<- | [<- | [<- | [<- | []]]]]; cbn in *;
      first [ discriminate | reflexivity ].
Qed.


Lemma loading_steps_stop_at_the_fourth_witness :
  LivePreview.loadingStep_after 7 = 3%nat
  /\ LivePreview.completed (LivePreview.mkStep "Artifact Compilation" true false) = false.
Proof.
  destruct (loading_steps_stop_at_the_fourth 7) as (H1 & _ & _ & H4).
  split; [ exact H1 | ].
  apply H4; [ | reflexivity ]. right; right; right; left. reflexivity.
Defined.

(** ** The key selection screen *)

(** X20. On load [hasApiKey] is what [window.aistudio.hasSelectedApiKey()]
    resolves to; where that method is missing the application is not
    gated.  The key dialog is the only way out of the gated view: when
    [window.aistudio.openSelectKey] is missing, or its promise rejects,
    [handleOpenKeySelection] changes nothing; when it resolves,
    [hasApiKey] becomes true whatever was selected. *)
Theorem key_gate_follows_aistudio :
  (forall aistudio b,
      (aistudio = None \/ exists a, aistudio = Some a /\ hasSelectedApiKey a = None) ->
      hasApiKey (exec (checkKey aistudio) b) = Some true)
  /\ (forall a hasKey b,
      hasSelectedApiKey a = Some (Fulfilled hasKey) ->
      hasApiKey (exec (checkKey (Some a)) b) = Some hasKey)
  /\ (forall aistudio b,
      (aistudio = None
       \/ exists a, aistudio = Some a
                    /\ (openSelectKey a = None \/ exists e, openSelectKey a = Some (Rejected e))) ->
      exec (handleOpenKeySelection aistudio) b = b)
  /\ (forall a b,
      openSelectKey a = Some (Fulfilled tt) ->
      hasApiKey (exec (handleOpenKeySelection (Some a)) b) = Some true).
Proof.
  split; [ | split; [ | split ] ].
  - intros aistudio b [-> | (a & -> & H)]; cbn; [ reflexivity | now rewrite H ].
  - intros a hasKey b H. cbn. now rewrite H.
  - intros aistudio b [-> | (a & -> & [H | (e & H)])]; cbn; try reflexivity;
      rewrite H; reflexivity.
  - intros a b H. cbn. now rewrite H.
Qed.

Lemma key_gate_follows_aistudio_witness :
  let gated_browser := exec (handleGenerate Scenario.over_quota "a login form"
                               (Some Scenario.a_png)) Scenario.browser0 in
  gated gated_browser
  /\ gated (exec (handleOpenKeySelection None) gated_browser)
  /\ hasApiKey (exec (handleOpenKeySelection
                        (Some (mkAIStudio (Some (Fulfilled false)) (Some (Fulfilled tt)))))
                     gated_browser) = Some true.
Proof.
  intros gated_browser.
  destruct key_gate_follows_aistudio as (_ & _ & H3 & H4).
  split; [ reflexivity | ]. split.
  - rewrite (H3 None gated_browser (or_introl eq_refl)). reflexivity.
  - exact (H4 (mkAIStudio (Some (Fulfilled false)) (Some (Fulfilled tt))) gated_browser
              eq_refl).
Defined.

(** ** No retries *)

Lemma count_log p l b : count p (log l b) = (count p b + length (filter p l))%nat.
Proof. unfold count, log; simpl. now rewrite filter_app, length_app. Qed.

Lemma scanFile_effects w file b :
  exists l,
    effects (snd (scanFile w file b)) = (effects b ++ l)%list
    /\ (l = []
        \/ exists req,
             file <> None
             /\ (l = [CallGenerateContent req]
                 \/ l = [CallGenerateContent req; ConsoleError "Identification Error:"])).
Proof.
  destruct file as [f |]; [ | exists []; cbn; rewrite app_nil_r; auto ].
  unfold scanFile, fileToBase64, bind, settle, ret.
  destruct (readAsDataURL f) as [url | e]; [ | exists []; cbn; rewrite app_nil_r; auto ].
  rewrite identifyImage_run. cbv zeta. unfold soft_failure.
  destruct (ai_generateContent w _) as [resp | e];
    [ destruct (JSON_parse_identifications w _) as [l | e] | ];
    try destruct (isQuotaOrAuthError e); cbn;
    eexists; (split; [ rewrite <- ?app_assoc; reflexivity | ]);
    right; eexists; (split; [ discriminate | ]); cbn; auto.
Qed.

Lemma scanFile_counts w file b :
  let b1 := snd (scanFile w file b) in
  (count is_generateContent b <= count is_generateContent b1
   <= count is_generateContent b + match file with Some _ => 1 | None => 0 end)%nat
  /\ count is_fetch b1 = count is_fetch b
  /\ count is_alert b1 = count is_alert b.
Proof.
  cbv zeta. destruct (scanFile_effects w file b) as (l & Hl & Hcase).
  unfold count. rewrite Hl, !filter_app, !length_app.
  destruct Hcase as [-> | (req & Hf & [-> | ->])]; cbn;
    destruct file; try contradiction; lia.
Qed.

Lemma handleError_counts e b :
  let b' := snd (handleError e b) in
  count is_generateContent b' = count is_generateContent b
  /\ count is_fetch b' = count is_fetch b
  /\ count is_eventSource b' = count is_eventSource b
  /\ (count is_alert b <= count is_alert b' <= count is_alert b + 1)%nat.
Proof.
  cbv zeta. unfold handleError, count.
  destruct (String.eqb _ _); cbn; rewrite ?filter_app, ?length_app; cbn; lia.
Qed.

(** X21. A handler asks each service at most once; there are no retries.
    A run of [handleGenerate] sends the hosted model at most two requests
    (one without a file), never calls the image endpoint, and shows at
    most one alert.  A run of [handleGenerateImage] submits exactly one job
    to the image endpoint, then either opens the event stream or asks the
    hosted model, never both, and shows at most one alert. *)
Theorem handlers_ask_each_service_once w :
  (forall promptText file b,
      let b' := exec (handleGenerate w promptText file) b in
      (count is_generateContent b <= count is_generateContent b'
       <= count is_generateContent b + match file with Some _ => 2 | None => 1 end)%nat
      /\ count is_fetch b' = count is_fetch b
      /\ (count is_alert b <= count is_alert b' <= count is_alert b + 1)%nat)
  /\ (forall prompt b,
      let b' := exec (handleGenerateImage w prompt) b in
      count is_fetch b' = (count is_fetch b + 1)%nat
      /\ (count is_eventSource b' + count is_generateContent b'
          = count is_eventSource b + count is_generateContent b + 1)%nat
      /\ (count is_alert b <= count is_alert b' <= count is_alert b + 1)%nat).
Proof.
  split.
  - intros p file b. cbv zeta. unfold exec. rewrite handleGenerate_run.
    destruct (scanFile_counts w file (begin_generate b)) as (S1 & S2 & S3).
    change (count is_generateContent (begin_generate b)) with (count is_generateContent b) in S1.
    change (count is_fetch (begin_generate b)) with (count is_fetch b) in S2.
    change (count is_alert (begin_generate b)) with (count is_alert b) in S3.
    destruct (scanFile w file (begin_generate b)) as [[sc | e] b1]; cbn [snd] in *.
    + rewrite bringToLife_run. cbv zeta.
      destruct (ai_generateContent w _) as [resp | e].
      * assert (C : forall q, count q (created (newCreation w p file sc
                                          (strip_fences (response_text resp)))
                                 (log [CallGenerateContent
                                         (bringToLife_request p (imageBase64 sc)
                                            (scan_mimeType sc)
                                            (detectionContext (detections sc)))] b1))
                      = count q (log [CallGenerateContent
                                        (bringToLife_request p (imageBase64 sc)
                                           (scan_mimeType sc)
                                           (detectionContext (detections sc)))] b1))
          by reflexivity.
        destruct (truthy _); cbn [snd]; rewrite ?C, !count_log; cbn;
          destruct file; lia.
      * match goal with |- context [handleError ?x ?s] =>
          destruct (handleError_counts x s) as (E1 & E2 & _ & E4) end.
        rewrite E1, E2. rewrite !count_log in *. cbn in *.
        destruct file; lia.
    + destruct (handleError_counts e b1) as (E1 & E2 & _ & E4). rewrite E1, E2.
      destruct file; lia.
  - intros p b. cbv zeta. unfold exec.
    rewrite handleGenerateImage_run, generateFluxImage_run.
    change (count is_fetch b) with (count is_fetch (begin_generateImage b)).
    change (count is_eventSource b) with (count is_eventSource (begin_generateImage b)).
    change (count is_generateContent b) with (count is_generateContent (begin_generateImage b)).
    change (count is_alert b) with (count is_alert (begin_generateImage b)).
    generalize (begin_generateImage b). intros b0.
    destruct (submission w p) as [event_id | e0].
    + unfold sse_promise, bind, settle. rewrite !perform_log.
      destruct (sse_settles _) as [u | e]; cbn [snd fst].
      * unfold created, count; cbn; rewrite ?filter_app, ?length_app; cbn. lia.
      * match goal with |- context [handleError e ?s] =>
          destruct (handleError_counts e s) as (E1 & E2 & E3 & E4) end.
        rewrite E1, E2, E3. rewrite !count_log in *. cbn in *. lia.
    + rewrite generateAIImage_run. cbv zeta.
      destruct (ai_generateContent w _) as [resp | e];
        [ destruct (first_image resp) | ]; cbn [snd fst].
      * unfold created, count; cbn; rewrite ?filter_app, ?length_app; cbn. lia.
      * match goal with |- context [handleError ?x ?s] =>
          destruct (handleError_counts x s) as (E1 & E2 & E3 & E4) end.
        rewrite E1, E2, E3. rewrite !count_log in *. cbn in *. lia.
      * match goal with |- context [handleError ?x ?s] =>
          destruct (handleError_counts x s) as (E1 & E2 & E3 & E4) end.
        rewrite E1, E2, E3. rewrite !count_log in *. cbn in *. lia.
Qed.


(** ** Code fences, further *)



Lemma startsWith_app a b : startsWith (a ++ b) a = true.
Proof. induction a as [| c a IH]; cbn; [ reflexivity | now rewrite Ascii.eqb_refl ]. Qed.

Lemma drop_app a b : drop (String.length a) (a ++ b) = b.
Proof. induction a as [| c a IH]; cbn; [ now destruct b | exact IH ]. Qed.











(** X23. [generateFluxImage] follows the job submission.  When the POST,
    its status or its body fails, the function is the fallback: it ends as
    [generateAIImage] ends, result and state, after the error is logged.
    When the job is accepted, the result is whatever the event stream's
    promise settles to, fulfilled or rejected, and the only effects are the
    POST and the opening and closing of one event source. *)
Theorem generateFluxImage_follows_the_submission w prompt b :
  (forall e,
      submission w prompt = Rejected e ->
      generateFluxImage w prompt b
      = generateAIImage w prompt
          (log [CallFetch prompt;
                ConsoleError "FLUX Generation Error, falling back to Gemini:"] b))
  /\ (forall event_id,
      submission w prompt = Fulfilled event_id ->
      let resultUrl := FLUX_API_BASE ++ "/" ++ event_id in
      generateFluxImage w prompt b
      = (sse_settles (eventSource w resultUrl),
         log [CallFetch prompt; OpenEventSource resultUrl; CloseEventSource] b)).
Proof.
  split.
  - intros e H. rewrite generateFluxImage_run, H.
    f_equal. unfold log; cbn. now rewrite <- app_assoc.
  - intros event_id H. cbv zeta. rewrite generateFluxImage_run, H.
    unfold sse_promise, bind, settle. rewrite !perform_log.
    f_equal. unfold log; cbn. now rewrite <- !app_assoc.
Qed.

Lemma generateFluxImage_follows_the_submission_witness :
  generateFluxImage Scenario.submit_fails "a red kite" Scenario.browser0
  = generateAIImage Scenario.submit_fails "a red kite"
      (log [CallFetch "a red kite";
            ConsoleError "FLUX Generation Error, falling back to Gemini:"]
           Scenario.browser0)
  /\ result (generateFluxImage Scenario.stream_times_out "a red kite") Scenario.browser0
     = Rejected (Error "FLUX generation timed out").
Proof.
  split.
  - exact (proj1 (generateFluxImage_follows_the_submission Scenario.submit_fails
                    "a red kite" Scenario.browser0) Scenario.network_error eq_refl).
  - unfold result.
    rewrite (proj2 (generateFluxImage_follows_the_submission Scenario.stream_times_out
                      "a red kite" Scenario.browser0) "a1b2c3" eq_refl).
    reflexivity.
Defined.

Lemma handleError_clears_snd e b : isGenerating (snd (handleError e b)) = false.
Proof. exact (handleError_clears e b). Qed.

(** X24. The generation flag is still set after a run of [handleGenerate]
    exactly when the scan went through and [bringToLife] returned the empty
    string; every other run clears it, and so does every run of
    [handleGenerateImage]. *)
Theorem generation_flag_is_cleared_unless_the_artifact_is_empty w :
  (forall promptText file b,
      isGenerating (exec (handleGenerate w promptText file) b) = true
      <-> exists sc b1 b2,
            scanFile w file (begin_generate b) = (Fulfilled sc, b1)
            /\ bringToLife w promptText (imageBase64 sc) (scan_mimeType sc)
                 (detectionContext (detections sc)) b1 = (Fulfilled EmptyString, b2))
  /\ (forall prompt b, isGenerating (exec (handleGenerateImage w prompt) b) = false).
Proof.
  split.
  - intros p file b. unfold exec. rewrite handleGenerate_run.
    pose proof (Quiet_scanFile w file (begin_generate b)) as Q1.
    destruct (scanFile w file (begin_generate b)) as [[sc | e] b1] eqn:Hs; cbn [snd] in Q1.
    + pose proof (Quiet_bringToLife w p (imageBase64 sc) (scan_mimeType sc)
                    (detectionContext (detections sc)) b1) as Q2.
      destruct (bringToLife _ _ _ _ _ b1) as [[html | e] b2] eqn:Hg; cbn [snd] in Q2.
      * destruct html as [| ch html]; cbn.
        -- rewrite (quiet_isGenerating Q2), (quiet_isGenerating Q1). cbn.
           split; [ intros _; now exists sc, b1, b2 | reflexivity ].
        -- split; [ discriminate | ].
           intros (sc' & b1' & b2' & H1 & H2). injection H1 as <- <-.
           rewrite Hg in H2. discriminate.
      * rewrite handleError_clears_snd. split; [ discriminate | ].
        intros (sc' & b1' & b2' & H1 & H2). injection H1 as <- <-.
        rewrite Hg in H2. discriminate.
    + rewrite handleError_clears_snd. split; [ discriminate | ].
      intros (sc' & b1' & b2' & H1 & _). discriminate.
  - intros p b. unfold exec. rewrite handleGenerateImage_run.
    destruct (generateFluxImage _ _ _) as [[u | e] b1]; [ reflexivity | ].
    apply handleError_clears_snd.
Qed.


Lemma generation_flag_is_cleared_unless_the_artifact_is_empty_witness :
  isGenerating (exec (handleGenerate (Scenario.answers Scenario.fence) "a login form" None)
                     Scenario.browser0) = true
  /\ isGenerating (exec (handleGenerateImage Scenario.stream_fails "a red kite")
                        Scenario.browser0) = false.
Proof.
  destruct (generation_flag_is_cleared_unless_the_artifact_is_empty
              (Scenario.answers Scenario.fence)) as (H1 & _).
  destruct (generation_flag_is_cleared_unless_the_artifact_is_empty
              Scenario.stream_fails) as (_ & H2).
  split.
  - apply H1. eexists _, _, _. split; reflexivity.
  - apply H2.
Defined.

Lemma submit_enabled_iff_fires_witness :
  InputArea.submit_disabled (InputArea.mkProps false false)
    (InputArea.mkState "  " "form" None true false "  ") = false.
Proof.
  apply (proj2 (submit_enabled_iff_fires (InputArea.mkProps false false)
                  (InputArea.mkState "  " "form" None true false "  "))).
  reflexivity.
Defined.
